(** * ColorSplit3mf: the paint-color splitter of [color_split_enhanced.py]

    A shallow embedding of [EnhancedColorSplitter]: the extraction of
    triangle records from the model text, the face lookup table, the
    merge of paint colors into [face_paint_colors], the grouping of faces
    by color, and the export loop.

    Conventions of the embedding:
    - Python [int] is [Z]; positions produced by [enumerate] are [nat].
    - [str] is [string]; the model text is taken to be ASCII, so that the
      class [\d] of the patterns is [0-9].
    - A [dict] that is only queried ([face_lookup]) is a [gmap]; a [dict]
      that is iterated ([face_paint_colors], [paint_color_groups],
      [color_groups]) is an association list in insertion order.
    - [numpy.float64] is the binary64 type [float] of the kernel.
    - Calls into trimesh, pathlib and the file system are parameters of
      the sections that use them.
    - Calls to [logger] are kept only in the export loop, where the
      specification speaks about them; elsewhere they do not influence
      the state. *)

From Stdlib Require Import ZArith String Ascii List Floats.
From stdpp Require Import base option gmap sets list strings sorting pretty.

Set Warnings "-inexact-float".

Open Scope string_scope.
Open Scope Z_scope.
Open Scope list_scope.

(** ** Python primitives *)

Module Py.

(** [sorted(l)] on integers. *)
Definition sorted (l : list Z) : list Z := merge_sort Z.le l.

(** [s.endswith(suf)]: some suffix of [s] is [suf]. *)
Fixpoint endswith (suf s : string) : bool :=
  String.eqb s suf ||
  match s with
  | EmptyString => false
  | String _ s' => endswith suf s'
  end.

(** [p in s] for strings. *)
Fixpoint contains (p s : string) : bool :=
  String.prefix p s ||
  match s with
  | EmptyString => false
  | String _ s' => contains p s'
  end.

Definition is_digit (c : ascii) : bool :=
  (48 <=? nat_of_ascii c)%nat && (nat_of_ascii c <=? 57)%nat.

Definition digit_value (c : ascii) : Z := Z.of_nat (nat_of_ascii c) - 48.

Fixpoint int_acc (acc : Z) (s : string) : Z :=
  match s with
  | EmptyString => acc
  | String c s' => int_acc (10 * acc + digit_value c) s'
  end.

(** [int(s)] on a string of decimal digits. *)
Definition int (s : string) : Z := int_acc 0 s.

(** [enumerate(l)]. *)
Definition enumerate {A} (l : list A) : list (nat * A) := imap pair l.

(** *** Insertion-ordered dictionaries *)

Section Dict.
Context {K V : Type} `{EqDecision K}.

Definition dict := list (K * V).

Fixpoint get (k : K) (d : dict) : option V :=
  match d with
  | [] => None
  | (k', v) :: d' => if decide (k = k') then Some v else get k d'
  end.

(** [d[k] = v]: an existing key keeps its place, a new one goes last. *)
Fixpoint set (k : K) (v : V) (d : dict) : dict :=
  match d with
  | [] => [(k, v)]
  | (k', v') :: d' =>
      if decide (k = k') then (k', v) :: d' else (k', v') :: set k v d'
  end.

Definition keys (d : dict) : list K := d.*1.
Definition values (d : dict) : list V := d.*2.
End Dict.

Arguments dict : clear implicits.

(** [d[k].append(x)] on a [defaultdict(list)]. *)
Definition append_to {K A} `{EqDecision K} (k : K) (x : A)
    (d : dict K (list A)) : dict K (list A) :=
  set k (default [] (get k d) ++ [x]) d.

End Py.

(** ** The two triangle patterns and [re.findall] *)

Module Re.

Definition quote : string := String "034"%char EmptyString.
Definition newline : ascii := "010"%char.

(** A literal piece of a pattern: the text after it, when it is there. *)
Fixpoint lit (p s : string) : option string :=
  match p with
  | EmptyString => Some s
  | String c p' =>
      match s with
      | String c' s' => if Ascii.eqb c c' then lit p' s' else None
      | EmptyString => None
      end
  end.

(** The longest run of digits at the head of [s] and what follows. *)
Fixpoint span_digits (s : string) : string * string :=
  match s with
  | String c s' =>
      if Py.is_digit c
      then let '(d, r) := span_digits s' in (String c d, r)
      else (EmptyString, s)
  | EmptyString => (EmptyString, EmptyString)
  end.

(** The group [(\d+)]. Every use is followed by the literal quote, which
    is no digit, so the greedy run is the only way to match. *)
Definition digits (s : string) : option (string * string) :=
  match span_digits s with
  | (EmptyString, _) => None
  | (d, r) => Some (d, r)
  end.

(** The text [.*] can run over: up to the next newline. *)
Fixpoint rest_of_line (s : string) : string :=
  match s with
  | EmptyString => EmptyString
  | String c s' =>
      if Ascii.eqb c newline then EmptyString else String c (rest_of_line s')
  end.

(** [<triangle v1="(\d+)" v2="(\d+)" v3="(\d+)"], shared by both
    patterns; the text after the quote closing [v3] is returned. *)
Definition triangle_head (s : string)
    : option (string * string * string * string) :=
  s ← lit ("<triangle v1=" +:+ quote) s;
  '(v1, s) ← digits s;
  s ← lit (quote +:+ " v2=" +:+ quote) s;
  '(v2, s) ← digits s;
  s ← lit (quote +:+ " v3=" +:+ quote) s;
  '(v3, s) ← digits s;
  s ← lit quote s;
  Some (v1, v2, v3, s).

(** [r'<triangle v1="(\d+)" v2="(\d+)" v3="(\d+)" paint_color="(\d+)"'] *)
Definition paint_color_pattern (s : string)
    : option ((string * string * string * string) * string) :=
  '(v1, v2, v3, s) ← triangle_head s;
  s ← lit (" paint_color=" +:+ quote) s;
  '(c, s) ← digits s;
  s ← lit quote s;
  Some ((v1, v2, v3, c), s).

(** [r'<triangle v1="(\d+)" v2="(\d+)" v3="(\d+)"(?!.*paint_color)'] *)
Definition no_paint_pattern (s : string)
    : option ((string * string * string) * string) :=
  '(v1, v2, v3, s) ← triangle_head s;
  if Py.contains "paint_color" (rest_of_line s) then None
  else Some ((v1, v2, v3), s).

(** [re.findall]: the groups of the non-overlapping matches, left to
    right. [skip] counts the characters still inside the last match. *)
Fixpoint findall_from {G} (pat : string → option (G * string))
    (skip : nat) (s : string) : list G :=
  match s with
  | EmptyString => []
  | String _ s' =>
      match skip with
      | S k => findall_from pat k s'
      | O =>
          match pat s with
          | Some (g, rest) =>
              g :: findall_from pat
                     (String.length s - String.length rest - 1) s'
          | None => findall_from pat 0 s'
          end
      end
  end.

Definition findall {G} (pat : string → option (G * string))
    (s : string) : list G :=
  findall_from pat 0 s.

End Re.

(** ** Exceptions *)

Inductive exn :=
  | IndexError
  | ValueError
  | OverflowError
  | AttributeError
  | OSError
  | Exception (msg : string).

Inductive result (A : Type) :=
  | Ok (a : A)
  | Raise (e : exn).
Arguments Ok {A} a.
Arguments Raise {A} e.

#[global] Instance result_ret : MRet result := λ A a, Ok a.
#[global] Instance result_bind : MBind result := λ A B f r,
  match r with
  | Ok a => f a
  | Raise e => Raise e
  end.

(** ** numpy on rows of [float64] *)

Module Np.

Definition row := list float.

(** [a[i]] on a sequence: negative positions count from the end. *)
Definition index {A} (l : list A) (i : Z) : result A :=
  let n := Z.of_nat (length l) in
  let j := if i <? 0 then n + i else i in
  if (0 <=? j) && (j <? n)
  then from_option Ok (Raise IndexError) (l !! Z.to_nat j)
  else Raise IndexError.

(** [np.mean(rows, axis=0)] of the three rows picked by a face: the
    columns are added in order and divided by the count. *)
Fixpoint mean3 (r0 r1 r2 : row) : row :=
  match r0, r1, r2 with
  | a :: r0', b :: r1', c :: r2' =>
      ((a + b + c) / 3)%float :: mean3 r0' r1' r2'
  | _, _, _ => []
  end.

(** Lexicographic order and equality of rows. *)
Fixpoint row_ltb (r s : row) : bool :=
  match r, s with
  | a :: r', b :: s' =>
      PrimFloat.ltb a b || (PrimFloat.eqb a b && row_ltb r' s')
  | [], _ :: _ => true
  | _, _ => false
  end.

Fixpoint row_eqb (r s : row) : bool :=
  match r, s with
  | a :: r', b :: s' => PrimFloat.eqb a b && row_eqb r' s'
  | [], [] => true
  | _, _ => false
  end.

Fixpoint insert_unique (r : row) (l : list row) : list row :=
  match l with
  | [] => [r]
  | s :: l' =>
      if row_eqb r s then l
      else if row_ltb r s then r :: l
      else s :: insert_unique r l'
  end.

(** [np.unique(rows, axis=0)]: the distinct rows, in ascending order. *)
Definition unique (rows : list row) : list row :=
  foldr insert_unique [] rows.

Definition rtol_default : float := 1e-5%float.

(** [np.isclose(a, b, rtol, atol)] on finite numbers. *)
Definition isclose (rtol atol a b : float) : bool :=
  PrimFloat.leb (abs (a - b)) (atol + rtol * abs b)%float.

(** [np.all(np.isclose(a, b, atol=atol), axis=1)] for one row [a]. *)
Fixpoint all_isclose (atol : float) (a b : row) : bool :=
  match a, b with
  | x :: a', y :: b' =>
      isclose rtol_default atol x y && all_isclose atol a' b'
  | _, _ => true
  end.

(** [int(x)] on a float: truncation towards zero. *)
Definition int (x : float) : result Z :=
  match Prim2SF x with
  | S754_zero _ => Ok 0
  | S754_finite s m e =>
      let v := if 0 <=? e then Z.pos m * 2 ^ e
               else Z.quot (Z.pos m) (2 ^ (- e)) in
      Ok (if s then - v else v)
  | S754_infinity _ => Raise OverflowError
  | S754_nan => Raise ValueError
  end.

End Np.

(** ** Meshes as trimesh hands them over *)

(** A row of [mesh.faces]: three vertex indices. *)
Definition face : Type := Z * Z * Z.

Definition face_vertices (f : face) : list Z :=
  let '(a, b, c) := f in [a; b; c].

(** What [material.diffuse] may hold: an array (or list) of channels, or
    some other object. *)
Inductive color_value :=
  | ColorArray (c : Np.row)
  | ColorOther.

(** [diffuse = None]: the material has no such attribute. *)
Record Material := { diffuse : option color_value }.

(** [mesh.visual], by the attributes the splitter probes with [hasattr]. *)
Inductive Visual :=
  | TextureVisuals (material : Material)
  | ColorVisuals (vertex_colors : option (list Np.row))
  | PlainVisual.

Record Trimesh := {
  vertices : list (float * float * float);
  faces : list face;
  visual : option Visual
}.

(** The value of [trimesh.load]: a mesh, or a scene with its [geometry]. *)
Inductive Loaded :=
  | SingleMesh (m : Trimesh)
  | Scene (geometry : list (string * Trimesh)).

(** A member of a color group: [{'mesh': mesh, 'name': object_name}]. *)
Record Entry := { entry_mesh : Trimesh; entry_name : string }.

(** ** The splitter's attributes *)

(** [paint_colors] maps a color key to the [paint_color_id] of its
    one-entry dictionary. *)
Record EnhancedColorSplitter := {
  input_file : string;
  mesh : option Loaded;
  paint_colors : Py.dict string Z;
  color_groups : Py.dict string (list Entry);
  face_paint_colors : option (Py.dict nat Z);
  face_lookup : gmap (list Z) nat
}.

Definition set_mesh (x : option Loaded) (self : EnhancedColorSplitter) :=
  {| input_file := input_file self; mesh := x;
     paint_colors := paint_colors self;
     color_groups := color_groups self;
     face_paint_colors := face_paint_colors self;
     face_lookup := face_lookup self |}.

Definition set_paint_colors (x : Py.dict string Z)
    (self : EnhancedColorSplitter) :=
  {| input_file := input_file self; mesh := mesh self;
     paint_colors := x;
     color_groups := color_groups self;
     face_paint_colors := face_paint_colors self;
     face_lookup := face_lookup self |}.

Definition set_color_groups (x : Py.dict string (list Entry))
    (self : EnhancedColorSplitter) :=
  {| input_file := input_file self; mesh := mesh self;
     paint_colors := paint_colors self;
     color_groups := x;
     face_paint_colors := face_paint_colors self;
     face_lookup := face_lookup self |}.

Definition set_face_paint_colors (x : option (Py.dict nat Z))
    (self : EnhancedColorSplitter) :=
  {| input_file := input_file self; mesh := mesh self;
     paint_colors := paint_colors self;
     color_groups := color_groups self;
     face_paint_colors := x;
     face_lookup := face_lookup self |}.

Definition set_face_lookup (x : gmap (list Z) nat)
    (self : EnhancedColorSplitter) :=
  {| input_file := input_file self; mesh := mesh self;
     paint_colors := paint_colors self;
     color_groups := color_groups self;
     face_paint_colors := face_paint_colors self;
     face_lookup := x |}.

(** [__init__] *)
Definition init (input_file : string) : EnhancedColorSplitter :=
  {| input_file := input_file; mesh := None;
     paint_colors := []; color_groups := [];
     face_paint_colors := None; face_lookup := ∅ |}.

(** ** Face correlation *)

(** [list(self.mesh.geometry.values())[0]] for a scene, the mesh itself
    otherwise. *)
Definition first_mesh (m : Loaded) : result Trimesh :=
  match m with
  | SingleMesh m => Ok m
  | Scene ((_, m) :: _) => Ok m
  | Scene [] => Raise IndexError
  end.

(** The loop of [_create_face_lookup]. *)
Definition build_lookup (fs : list face) : gmap (list Z) nat :=
  fold_left (λ d '(i, f), <[Py.sorted (face_vertices f) := i]> d)
            (Py.enumerate fs) ∅.

Definition _create_face_lookup (self : EnhancedColorSplitter)
    : result EnhancedColorSplitter :=
  match mesh self with
  | None => Ok self
  | Some m =>
      m ← first_mesh m;
      Ok (set_face_lookup (build_lookup (faces m)) self)
  end.

Definition _find_face_index_fast (self : EnhancedColorSplitter)
    (v1 v2 v3 : Z) : option nat :=
  face_lookup self !! Py.sorted [v1; v2; v3].

(** [set(face) == {v1, v2, v3}] *)
Definition same_vertex_set (v1 v2 v3 : Z) (f : face) : Prop :=
  (list_to_set (face_vertices f) : gset Z) = {[ v1; v2; v3 ]}.

#[global] Instance same_vertex_set_dec v1 v2 v3 f :
  Decision (same_vertex_set v1 v2 v3 f).
Proof. unfold same_vertex_set. apply _. Defined.

(** The loop of [_find_face_index]: the first face with that vertex set. *)
Definition scan_faces (fs : list face) (v1 v2 v3 : Z) : option nat :=
  fst <$> list_find (same_vertex_set v1 v2 v3) fs.

Definition _find_face_index (self : EnhancedColorSplitter)
    (v1 v2 v3 : Z) : result (option nat) :=
  match mesh self with
  | None => Ok None
  | Some m =>
      m ← first_mesh m;
      Ok (scan_faces (faces m) v1 v2 v3)
  end.

(** ** Paint colors *)

(** The body of both loops of [_parse_paint_colors]. *)
Definition assign_color (self : EnhancedColorSplitter)
    (v1 v2 v3 : string) (c : Z) : EnhancedColorSplitter :=
  match _find_face_index_fast self (Py.int v1) (Py.int v2) (Py.int v3),
        face_paint_colors self with
  | Some face_idx, Some d =>
      set_face_paint_colors (Some (Py.set face_idx c d)) self
  | _, _ => self
  end.

Definition _parse_paint_colors (self : EnhancedColorSplitter)
    (content : string) : result EnhancedColorSplitter :=
  let paint_triangles := Re.findall Re.paint_color_pattern content in
  let no_paint_triangles := Re.findall Re.no_paint_pattern content in
  let self := set_face_paint_colors (Some []) self in
  self ← _create_face_lookup self;
  let self :=
    fold_left (λ self '(v1, v2, v3, paint_color),
                 assign_color self v1 v2 v3 (Py.int paint_color))
              paint_triangles self in
  let self :=
    fold_left (λ self '(v1, v2, v3), assign_color self v1 v2 v3 0)
              no_paint_triangles self in
  Ok self.

(** The members of the 3MF archive, in [namelist()] order, each with its
    decoded text. *)
Definition Archive : Type := list (string * string).

(** [zip_ref.open(name)]: of several members with one name the archive
    serves the last. *)
Definition zip_read (a : Archive) (name : string) : option string :=
  snd <$> last (filter (λ m, m.1 = name) a).

Definition object_files (a : Archive) : list string :=
  filter (λ f, Py.endswith ".model" f && Py.contains "Objects" f) a.*1.

Definition _extract_paint_colors (self : EnhancedColorSplitter)
    (a : Archive) : result EnhancedColorSplitter :=
  match object_files a with
  | [] => Ok self
  | object_file :: _ =>
      match zip_read a object_file with
      | Some content => _parse_paint_colors self content
      | None => Raise OSError
      end
  end.

(** ** Color groups *)

Definition _add_to_color_group (self : EnhancedColorSplitter)
    (m : Trimesh) (color_key object_name : string) : EnhancedColorSplitter :=
  let groups :=
    match Py.get color_key (color_groups self) with
    | None => Py.set color_key [] (color_groups self)
    | Some _ => color_groups self
    end in
  set_color_groups
    (Py.append_to color_key {| entry_mesh := m; entry_name := object_name |}
                  groups)
    self.

(** [int(c * 255) if c <= 1 else int(c)] *)
Definition channel (c : float) : result Z :=
  if PrimFloat.leb c 1 then Np.int (c * 255)%float else Np.int c.

Definition _color_to_key (color : color_value) : result string :=
  match color with
  | ColorArray c =>
      rgb ← mapM channel (take 3 c);
      r ← Np.index rgb 0;
      g ← Np.index rgb 1;
      b ← Np.index rgb 2;
      Ok ("color_" +:+ pretty r +:+ "_" +:+ pretty g +:+ "_" +:+ pretty b)
  | ColorOther => Ok "unknown_color"
  end.

(** ** Splitting a mesh into color groups *)

(** The argument of [mesh.submesh([...])]: face positions, or a mask. *)
Inductive selection :=
  | Indices (l : list nat)
  | Mask (m : list bool).

(** What [mesh.submesh] hands back, as the splitter tells the cases apart:
    a list of meshes, one mesh, or [None]. *)
Inductive submesh_result :=
  | SubList (l : list Trimesh)
  | SubOne (m : Trimesh)
  | SubNone.

(** The four branches of [_extract_materials_from_mesh_with_paint]. *)
Inductive strategy :=
  | PaintColoring
  | MaterialColoring
  | VertexColoring
  | DefaultGroup.

(** The first loop of [_handle_paint_coloring]:
    [paint_color_groups[paint_color].append(face_idx)] for the positions
    below [len(mesh.faces)]. *)
Definition paint_color_groups (m : Trimesh) (fpc : Py.dict nat Z)
    : Py.dict Z (list nat) :=
  fold_left (λ g '(face_idx, paint_color),
               if (face_idx <? length (faces m))%nat
               then Py.append_to paint_color face_idx g
               else g)
            fpc [].

Definition has_material (m : Trimesh) : bool :=
  match visual m with
  | Some (TextureVisuals _) => true
  | _ => false
  end.

Definition has_vertex_colors (m : Trimesh) : bool :=
  match visual m with
  | Some (ColorVisuals _) => true
  | _ => false
  end.

(** The branch [_extract_materials_from_mesh_with_paint] takes. *)
Definition coloring_strategy (self : EnhancedColorSplitter) (m : Trimesh)
    : strategy :=
  match face_paint_colors self with
  | Some _ => PaintColoring
  | None =>
      if has_material m then MaterialColoring
      else if has_vertex_colors m then VertexColoring
      else DefaultGroup
  end.


(** [np.mean(vertex_colors[face], axis=0)] *)
Definition face_color (vertex_colors : list Np.row) (f : face)
    : result Np.row :=
  let '(a, b, c) := f in
  r0 ← Np.index vertex_colors a;
  r1 ← Np.index vertex_colors b;
  r2 ← Np.index vertex_colors c;
  Ok (Np.mean3 r0 r1 r2).

Definition atol : float := 1e-6%float.

(** [np.all(np.isclose(face_colors_array, color, atol=1e-6), axis=1)] *)
Definition color_mask (face_colors : list Np.row) (color : Np.row)
    : list bool :=
  map (λ fc, Np.all_isclose atol fc color) face_colors.

(** A [for] loop whose body may raise. *)
Fixpoint for_each {A S} (body : S → A → result S) (l : list A) (s : S)
    : result S :=
  match l with
  | [] => Ok s
  | x :: l' => s' ← body s x; for_each body l' s'
  end.

Section Trimesh.

(** [trimesh.Trimesh.submesh] *)
Variable submesh : Trimesh → selection → submesh_result.

(** The two [isinstance] cases after a call of [submesh]: the mesh that
    goes into the group, if any. *)
Definition picked (r : submesh_result) : option Trimesh :=
  match r with
  | SubList (m :: _) => Some m
  | SubList [] => None
  | SubOne m => Some m
  | SubNone => None
  end.

Definition _handle_paint_coloring (self : EnhancedColorSplitter)
    (m : Trimesh) (object_name : string) : EnhancedColorSplitter :=
  match face_paint_colors self with
  | None => self
  | Some fpc =>
      fold_left
        (λ self '(paint_color, face_indices),
           match face_indices with
           | [] => self
           | _ =>
               let color_key := "paint_color_" +:+ pretty paint_color in
               match picked (submesh m (Indices face_indices)) with
               | Some sub =>
                   let self :=
                     _add_to_color_group self sub color_key
                       (object_name +:+ "_" +:+ color_key) in
                   set_paint_colors
                     (Py.set color_key paint_color (paint_colors self)) self
               | None => self
               end
           end)
        (paint_color_groups m fpc) self
  end.

Definition _handle_material_coloring (self : EnhancedColorSplitter)
    (m : Trimesh) (object_name : string) : result EnhancedColorSplitter :=
  match visual m with
  | None => Ok (_add_to_color_group self m "default" object_name)
  | Some (TextureVisuals material) =>
      match diffuse material with
      | Some color =>
          color_key ← _color_to_key color;
          Ok (_add_to_color_group self m color_key object_name)
      | None => Ok (_add_to_color_group self m "default" object_name)
      end
  | Some _ => Raise AttributeError
  end.

(** The body of the loop over [unique_colors]. *)
Definition add_color_cluster (m : Trimesh) (object_name : string)
    (face_colors : list Np.row) (self : EnhancedColorSplitter)
    (color : Np.row) : result EnhancedColorSplitter :=
  color_key ← _color_to_key (ColorArray color);
  let mask := color_mask face_colors color in
  if existsb id mask then
    match picked (submesh m (Mask mask)) with
    | Some sub =>
        Ok (_add_to_color_group self sub color_key
              (object_name +:+ "_" +:+ color_key))
    | None => Ok self
    end
  else Ok self.

Definition _handle_vertex_coloring (self : EnhancedColorSplitter)
    (m : Trimesh) (object_name : string) : result EnhancedColorSplitter :=
  match visual m with
  | None => Ok (_add_to_color_group self m "default" object_name)
  | Some (ColorVisuals (Some (r :: rs))) =>
      let vertex_colors := r :: rs in
      face_colors ← mapM (face_color vertex_colors) (faces m);
      let unique_colors := Np.unique face_colors in
      for_each (add_color_cluster m object_name face_colors)
               unique_colors self
  | Some (ColorVisuals _) =>
      Ok (_add_to_color_group self m "default" object_name)
  | Some _ => Raise AttributeError
  end.

Definition _extract_materials_from_mesh_with_paint
    (self : EnhancedColorSplitter) (m : Trimesh) (object_name : string)
    : result EnhancedColorSplitter :=
  match coloring_strategy self m with
  | PaintColoring => Ok (_handle_paint_coloring self m object_name)
  | MaterialColoring => _handle_material_coloring self m object_name
  | VertexColoring => _handle_vertex_coloring self m object_name
  | DefaultGroup => Ok (_add_to_color_group self m "default" object_name)
  end.

Definition _process_scene_with_paint (self : EnhancedColorSplitter)
    : result EnhancedColorSplitter :=
  match mesh self with
  | Some (Scene geometry) =>
      for_each (λ self '(name, m),
                  _extract_materials_from_mesh_with_paint self m name)
               geometry self
  | _ => Ok self
  end.

Definition _process_single_mesh_with_paint (self : EnhancedColorSplitter)
    : result EnhancedColorSplitter :=
  match mesh self with
  | Some (SingleMesh m) =>
      _extract_materials_from_mesh_with_paint self m "main"
  | _ => Ok self
  end.

(** [load_3mf], given what [trimesh.load] and the archive reader
    deliver for the input file. *)
Definition load_3mf (self : EnhancedColorSplitter) (loaded : Loaded)
    (a : Archive) : result EnhancedColorSplitter :=
  let self := set_mesh (Some loaded) self in
  self ← _extract_paint_colors self a;
  match loaded with
  | Scene _ => _process_scene_with_paint self
  | SingleMesh _ => _process_single_mesh_with_paint self
  end.


(** [trimesh.util.concatenate] *)
Variable concatenate : list Trimesh → Trimesh.

Definition split_by_color (self : EnhancedColorSplitter)
    : Py.dict string Trimesh :=
  fold_left
    (λ split_meshes '(color_key, meshes),
       match meshes with
       | [e] => Py.set color_key (entry_mesh e) split_meshes
       | _ => Py.set color_key (concatenate (entry_mesh <$> meshes))
                     split_meshes
       end)
    (color_groups self) [].

(** What [split_by_color] makes of one group. *)
Definition split_group (meshes : list Entry) : Trimesh :=
  match meshes with
  | [e] => entry_mesh e
  | _ => concatenate (entry_mesh <$> meshes)
  end.

End Trimesh.

(** ** Export *)

Inductive level := INFO | WARNING | ERROR.

(** [str(e)] *)
Definition exn_message (e : exn) : string :=
  match e with
  | Exception msg => msg
  | _ => ""
  end.

(** One call of the exporter: the group, the path, and the exception it
    raised, if any. *)
Record ExportCall := {
  call_key : string;
  call_path : string;
  call_raised : option exn
}.

Definition succeeded (c : ExportCall) : bool :=
  match call_raised c with
  | None => true
  | Some _ => false
  end.

(** What the loop logs for a call. *)
Definition log_record (c : ExportCall) : level * string :=
  match call_raised c with
  | None => (INFO, "Exported: " +:+ call_path c)
  | Some e => (ERROR, "Error exporting " +:+ call_key c +:+ ": "
                        +:+ exn_message e)
  end.

Section Exporting.

(** The file system. *)
Variable World : Type.

(** [Path(output_dir).mkdir(exist_ok=True)] *)
Variable mkdir : string → World → result World.

(** [mesh.export(path)]: writes, and returns or raises an [Exception]. *)
Variable export : Trimesh → string → World → World * option exn.

(** [str(Path(output_dir) / filename)] *)
Variable path_join : string → string → string.

(** [Path(input_file).stem] *)
Variable stem : string → string.

Variable concatenate : list Trimesh → Trimesh.

(** The state the export loop works on. *)
Record Run := {
  world : World;
  log : list (level * string);
  exported_files : list string
}.

Definition filepath_of (self : EnhancedColorSplitter)
    (output_dir format color_key : string) : string :=
  let base_name := stem (input_file self) in
  let filename := base_name +:+ "_" +:+ color_key +:+ "." +:+ format in
  path_join output_dir filename.

(** The body of the loop of [export_split_meshes], with its [try]. *)
Definition export_one (self : EnhancedColorSplitter)
    (output_dir format : string) (r : Run) (g : string * Trimesh) : Run :=
  let '(color_key, m) := g in
  let filepath := filepath_of self output_dir format color_key in
  match export m filepath (world r) with
  | (w, None) =>
      {| world := w;
         log := log r ++ [(INFO, "Exported: " +:+ filepath)];
         exported_files := exported_files r ++ [filepath] |}
  | (w, Some e) =>
      {| world := w;
         log := log r ++ [(ERROR, "Error exporting " +:+ color_key
                                    +:+ ": " +:+ exn_message e)];
         exported_files := exported_files r |}
  end.

Definition export_split_meshes (self : EnhancedColorSplitter)
    (output_dir format : string) (w : World) (l : list (level * string))
    : result Run :=
  w ← mkdir output_dir w;
  let split_meshes := split_by_color concatenate self in
  Ok (fold_left (export_one self output_dir format) split_meshes
                {| world := w; log := l; exported_files := [] |}).

(** The calls of the exporter that exporting the groups [gs] one after
    the other from the world [w] amounts to, whatever each call does. *)
Fixpoint export_calls (self : EnhancedColorSplitter)
    (output_dir format : string) (gs : list (string * Trimesh)) (w : World)
    : list ExportCall :=
  match gs with
  | [] => []
  | (color_key, m) :: gs' =>
      let filepath := filepath_of self output_dir format color_key in
      let '(w', raised) := export m filepath w in
      {| call_key := color_key; call_path := filepath; call_raised := raised |}
      :: export_calls self output_dir format gs' w'
  end.

End Exporting.

(** ** The color report *)

(** One value of [info['colors']]; [paint_info = None] is the empty
    dictionary that [self.paint_colors.get(color_key, {})] falls back
    to. *)
Record GroupInfo := { mesh_count : nat; paint_info : option Z }.

Record ColorInfo := {
  total_color_groups : nat;
  colors : Py.dict string GroupInfo
}.

Definition get_color_info (self : EnhancedColorSplitter) : ColorInfo :=
  {| total_color_groups := length (color_groups self);
     colors :=
       fold_left
         (λ colors '(color_key, meshes),
            Py.set color_key
              {| mesh_count := length meshes;
                 paint_info := Py.get color_key (paint_colors self) |}
              colors)
         (color_groups self) [] |}.

(** ** The command line *)



Section Program.

Variable World : Type.
Variable mkdir : string → World → result World.
Variable export : Trimesh → string → World → World * option exn.
Variable path_join : string → string → string.
Variable stem : string → string.
Variable concatenate : list Trimesh → Trimesh.
Variable submesh : Trimesh → selection → submesh_result.

(** [os.path.exists] *)
Variable path_exists : string → World → bool.

(** [trimesh.load(path)] *)
Variable trimesh_load : string → World → result Loaded.

(** [zipfile.ZipFile(path)] with the members the splitter reads from it,
    or the exception raised on the way. *)
Variable read_archive : string → World → result Archive.




End Program.

(** ** The vocabulary of the properties *)





(** The dictionaries [color_groups] can hold: empty at first, then grown
    by [_add_to_color_group] only. *)
Inductive grown : Py.dict string (list Entry) → Prop :=
  | grown_empty : grown []
  | grown_add self m color_key object_name :
      grown (color_groups self) →
      grown (color_groups (_add_to_color_group self m color_key object_name)).

(** The color key of a paint color id: [f"paint_color_{paint_color}"]. *)
Definition paint_key (paint_color : Z) : string :=
  "paint_color_" +:+ pretty paint_color.



(** The body of the second loop of [_handle_paint_coloring]. *)
Definition paint_step (submesh : Trimesh → selection → submesh_result)
    (m : Trimesh) (object_name : string)
    (self : EnhancedColorSplitter) (g : Z * list nat)
    : EnhancedColorSplitter :=
  let '(paint_color, face_indices) := g in
  match face_indices with
  | [] => self
  | _ =>
      match picked (submesh m (Indices face_indices)) with
      | Some sub =>
          let self :=
            _add_to_color_group self sub (paint_key paint_color)
              (object_name +:+ "_" +:+ paint_key paint_color) in
          set_paint_colors
            (Py.set (paint_key paint_color) paint_color (paint_colors self))
            self
      | None => self
      end
  end.

(** The objects [load_3mf] goes through, each with the name it is
    processed under. *)
Definition objects (l : Loaded) : list (string * Trimesh) :=
  match l with
  | SingleMesh m => [("main", m)]
  | Scene geometry => geometry
  end.

(** A mesh without a color the fallbacks could read: no visual, a
    material without [diffuse], or vertex colors that are missing or
    empty. *)
Definition colorless (m : Trimesh) : bool :=
  match visual m with
  | Some (TextureVisuals material) =>
      match diffuse material with
      | Some _ => false
      | None => true
      end
  | Some (ColorVisuals (Some (_ :: _))) => false
  | _ => true
  end.

(** A byte as [float64], as an array of [uint8] colors holds it. *)
Definition byte_float (n : Z) : float := PrimFloat.of_uint63 (Uint63.of_Z n).

(** The channel of the color key that the byte [n] ends as. *)
Definition byte_key (n : Z) : Z := if decide (n = 1) then 255 else n.

(** ** Source order, as the specification words it *)




(** ** Data and stand-ins for the examples *)

(** One triangle element on a line of its own. *)
Definition triangle_line (v1 v2 v3 : string) (paint_color : option string)
    : string :=
  "<triangle v1=" +:+ Re.quote +:+ v1 +:+ Re.quote
  +:+ " v2=" +:+ Re.quote +:+ v2 +:+ Re.quote
  +:+ " v3=" +:+ Re.quote +:+ v3 +:+ Re.quote
  +:+ match paint_color with
      | Some c => " paint_color=" +:+ Re.quote +:+ c +:+ Re.quote
      | None => ""
      end
  +:+ "/>" +:+ String Re.newline "".

(** The model text as a writer lays it out: one triangle element per
    line, each behind the same indentation. *)
Definition records_text (indent : string)
    (ts : list (string * string * string * option string)) : string :=
  foldr (λ '(v1, v2, v3, c) s, indent +:+ triangle_line v1 v2 v3 c +:+ s) "" ts.

Fixpoint digits_only (s : string) : bool :=
  match s with
  | EmptyString => true
  | String c s' => Py.is_digit c && digits_only s'
  end.

(** A decimal numeral: one digit or more. *)
Definition is_number (s : string) : bool :=
  match s with
  | EmptyString => false
  | _ => digits_only s
  end.

(** A record whose attributes are numerals. *)
Definition well_formed (t : string * string * string * option string) : bool :=
  let '(v1, v2, v3, c) := t in
  is_number v1 && is_number v2 && is_number v3
  && from_option is_number true c.

(** No character of [s] opens an element. *)
Fixpoint no_lt (s : string) : bool :=
  match s with
  | EmptyString => true
  | String c s' => negb (Ascii.eqb c "<") && no_lt s'
  end.

(** The mesh of the example of C4: one face, stored as (0,1,2). *)
Definition one_face_mesh : Trimesh :=
  {| vertices := []; faces := [(0, 1, 2)]; visual := None |}.

(** The mesh of the scenario of the specification. *)
Definition three_face_mesh : Trimesh :=
  {| vertices := []; faces := [(0, 1, 2); (1, 2, 3); (2, 3, 4)];
     visual := None |}.

Definition empty_mesh : Trimesh :=
  {| vertices := []; faces := []; visual := None |}.



Definition three_face_loaded : EnhancedColorSplitter :=
  set_mesh (Some (SingleMesh three_face_mesh)) (init "model.3mf").

Definition one_face_splitter : EnhancedColorSplitter :=
  set_face_lookup (build_lookup (faces one_face_mesh))
    (set_mesh (Some (SingleMesh one_face_mesh)) (init "model.3mf")).

Definition three_face_splitter : EnhancedColorSplitter :=
  set_face_lookup (build_lookup (faces three_face_mesh))
    (set_mesh (Some (SingleMesh three_face_mesh)) (init "model.3mf")).



(** The scenario of the specification: the face (0,1,2) painted 5, the
    face (1,2,3) without a color. *)
Definition scenario_text : string :=
  triangle_line "0" "1" "2" (Some "5") +:+ triangle_line "1" "2" "3" None.


(** The archive of the scenario of the specification. *)
Definition scenario_archive : Archive :=
  [("3D/Objects/object_1.model", scenario_text)].


(** The state after [_extract_paint_colors], when it returns. *)
Definition extracted (self : EnhancedColorSplitter) (a : Archive)
    : EnhancedColorSplitter :=
  match _extract_paint_colors self a with
  | Ok self' => self'
  | Raise _ => self
  end.

(** A [submesh] that keeps the selected faces, in a list of one mesh. *)
Definition select_faces (m : Trimesh) (s : selection) : submesh_result :=
  SubList
    [{| vertices := vertices m;
        faces := match s with
                 | Indices l => omap (λ i, faces m !! i) l
                 | Mask b =>
                     snd <$> filter (λ p : bool * face, p.1 = true)
                               (zip b (faces m))
                 end;
        visual := None |}].

(** A [concatenate] that puts the vertices and the faces one after the
    other. *)
Definition join_meshes (ms : list Trimesh) : Trimesh :=
  {| vertices := ms ≫= vertices; faces := ms ≫= faces; visual := None |}.

(** A file system: the files written so far. *)
Definition disk : Type := list (string * Trimesh).

Definition disk_mkdir (dir : string) (w : disk) : result disk := Ok w.

(** An exporter that refuses a mesh without faces. *)
Definition disk_export (m : Trimesh) (path : string) (w : disk)
    : disk * option exn :=
  match faces m with
  | [] => (w, Some (Exception "empty mesh"))
  | _ => (w ++ [(path, m)], None)
  end.

Definition join_path (dir name : string) : string := dir +:+ "/" +:+ name.

Definition stem_model (input_file : string) : string := "model".

(** Three groups: one submesh, two submeshes, and one empty mesh. *)
Definition three_groups : EnhancedColorSplitter :=
  _add_to_color_group
    (_add_to_color_group
       (_add_to_color_group
          (_add_to_color_group (init "model.3mf")
             one_face_mesh "paint_color_5" "main_paint_color_5")
          empty_mesh "paint_color_9" "main_paint_color_9")
       one_face_mesh "paint_color_0" "a_paint_color_0")
    three_face_mesh "paint_color_0" "b_paint_color_0".

(** The state after [load_3mf] with the stand-in [submesh], when it
    returns. *)
Definition loaded (m : Trimesh) (a : Archive) : EnhancedColorSplitter :=
  match load_3mf select_faces (init "model.3mf") (SingleMesh m) a with
  | Ok self => self
  | Raise _ => init "model.3mf"
  end.

(** Both records of the scenario on one line. *)
Definition scenario_on_one_line : string :=
  "<triangle v1=" +:+ Re.quote +:+ "1" +:+ Re.quote
  +:+ " v2=" +:+ Re.quote +:+ "2" +:+ Re.quote
  +:+ " v3=" +:+ Re.quote +:+ "3" +:+ Re.quote +:+ "/>"
  +:+ "<triangle v1=" +:+ Re.quote +:+ "0" +:+ Re.quote
  +:+ " v2=" +:+ Re.quote +:+ "1" +:+ Re.quote
  +:+ " v3=" +:+ Re.quote +:+ "2" +:+ Re.quote
  +:+ " paint_color=" +:+ Re.quote +:+ "5" +:+ Re.quote +:+ "/>".

(** A scene of two objects: three faces, then one face. *)
Definition two_object_scene : Loaded :=
  Scene [("first", three_face_mesh); ("second", one_face_mesh)].

(** Two faces over six vertices, vertex [i] gray [grays !! i], opaque. *)
Definition gray_vertex_mesh (grays : list float) : Trimesh :=
  {| vertices := [];
     faces := [(0, 1, 2); (3, 4, 5)];
     visual := Some (ColorVisuals
                       (Some ((λ g, [g; g; g; 255%float]) <$> grays))) |}.

(** * Properties *)

(** ** The face lookup table *)

Lemma sorted_perm (l k : list Z) : l ≡ₚ k → Py.sorted l = Py.sorted k.
Proof.
  intros Hp. unfold Py.sorted.
  apply (Sorted_unique Z.le); try apply Sorted_merge_sort; try apply _.
  by rewrite !merge_sort_Permutation.
Qed.

Lemma sorted_eq_perm (l k : list Z) : Py.sorted l = Py.sorted k → l ≡ₚ k.
Proof.
  unfold Py.sorted. intros He.
  rewrite <- (merge_sort_Permutation Z.le l), He.
  apply merge_sort_Permutation.
Qed.

Lemma enumerate_snoc {A} (l : list A) (x : A) :
  Py.enumerate (l ++ [x]) = Py.enumerate l ++ [(length l, x)].
Proof.
  unfold Py.enumerate. rewrite imap_app. simpl.
  by rewrite Nat.add_0_r.
Qed.

Lemma build_lookup_snoc (fs : list face) (f : face) :
  build_lookup (fs ++ [f])
  = <[Py.sorted (face_vertices f) := length fs]> (build_lookup fs).
Proof.
  unfold build_lookup. by rewrite enumerate_snoc, fold_left_app.
Qed.

(** A key is absent exactly when no face sorts to it. *)
Lemma build_lookup_None (fs : list face) (k : list Z) :
  build_lookup fs !! k = None
  ↔ ∀ f, f ∈ fs → Py.sorted (face_vertices f) ≠ k.
Proof.
  induction fs as [|f fs IH] using rev_ind.
  - split; [intros _ f Hf; by apply elem_of_nil in Hf | done].
  - rewrite build_lookup_snoc, lookup_insert.
    case_decide as Hk.
    + split; [done|]. intros H. destruct (H f); [|done].
      apply elem_of_app. right. by apply list_elem_of_singleton.
    + rewrite IH. split.
      * intros H g Hg. apply elem_of_app in Hg as [Hg|Hg]; [by apply H|].
        apply list_elem_of_singleton in Hg. by subst.
      * intros H g Hg. apply H. apply elem_of_app. by left.
Qed.

(** A key leads to the last position whose face sorts to it. *)
Lemma build_lookup_Some (fs : list face) (k : list Z) (i : nat) :
  build_lookup fs !! k = Some i
  ↔ (∃ f, fs !! i = Some f ∧ Py.sorted (face_vertices f) = k)
    ∧ ∀ j g, (i < j)%nat → fs !! j = Some g
             → Py.sorted (face_vertices g) ≠ k.
Proof.
  revert i. induction fs as [|f fs IH] using rev_ind; intros i.
  - split; [done|]. by intros [(g & Hg & _) _].
  - rewrite build_lookup_snoc, lookup_insert.
    case_decide as Hk.
    + split.
      * intros [= <-]. split.
        -- exists f. by rewrite list_lookup_middle.
        -- intros j g Hj Hg. apply lookup_lt_Some in Hg.
           rewrite length_app in Hg. simpl in Hg. lia.
      * intros [(g & Hg & Hgk) Hlast].
        destruct (decide (i = length fs)) as [->|Hne]; [done|].
        exfalso. apply (Hlast (length fs) f); [|by rewrite list_lookup_middle|done].
        apply lookup_lt_Some in Hg. rewrite length_app in Hg. simpl in Hg. lia.
    + rewrite IH. split.
      * intros [(g & Hg & Hgk) Hlast]. split.
        -- exists g. split; [|done]. by apply lookup_app_l_Some.
        -- intros j h Hj Hh.
           destruct (decide (j < length fs)%nat) as [Hlt|Hge].
           ++ rewrite lookup_app_l in Hh by done. by eapply Hlast.
           ++ rewrite lookup_app_r in Hh by lia.
              destruct (j - length fs)%nat; [|done].
              by injection Hh as <-.
      * intros [(g & Hg & Hgk) Hlast].
        assert (i < length fs)%nat as Hi.
        { apply lookup_lt_Some in Hg as Hlen.
          rewrite length_app in Hlen. simpl in Hlen.
          destruct (decide (i = length fs)) as [->|]; [|lia].
          rewrite list_lookup_middle in Hg by done.
          injection Hg as ->. done. }
        rewrite lookup_app_l in Hg by done. split; [by exists g|].
        intros j h Hj Hh. apply (Hlast j h Hj).
        by apply lookup_app_l_Some.
Qed.

Lemma elem_of_triple (x v1 v2 v3 : Z) :
  x ∈ ({[ v1; v2; v3 ]} : gset Z) ↔ x = v1 ∨ x = v2 ∨ x = v3.
Proof. rewrite !elem_of_union, !elem_of_singleton. tauto. Qed.

Lemma elem_of_list3 (x a b c : Z) : x ∈ [a; b; c] ↔ x = a ∨ x = b ∨ x = c.
Proof. rewrite !elem_of_cons, elem_of_nil. tauto. Qed.

Lemma NoDup_list3 (a b c : Z) : NoDup [a; b; c] ↔ a ≠ b ∧ a ≠ c ∧ b ≠ c.
Proof.
  rewrite !NoDup_cons, !elem_of_cons, !elem_of_nil.
  pose proof (@NoDup_nil_2 Z). tauto.
Qed.

Lemma same_vertex_set_elems (v1 v2 v3 : Z) (f : face) :
  same_vertex_set v1 v2 v3 f
  ↔ ∀ x, x ∈ face_vertices f ↔ x ∈ [v1; v2; v3].
Proof.
  unfold same_vertex_set. split.
  - intros Hs x. rewrite <- (elem_of_list_to_set (C := gset Z)), Hs.
    by rewrite elem_of_triple, elem_of_list3.
  - intros Hm. apply set_eq. intros x.
    by rewrite elem_of_list_to_set, Hm, elem_of_triple, elem_of_list3.
Qed.

(** For a face of three distinct vertices, having the vertex set of a
    query is having its sorted triple. *)
Lemma same_vertex_set_sorted (v1 v2 v3 : Z) (f : face) :
  NoDup (face_vertices f) →
  same_vertex_set v1 v2 v3 f
  ↔ Py.sorted (face_vertices f) = Py.sorted [v1; v2; v3].
Proof.
  rewrite same_vertex_set_elems.
  destruct f as [[a b] c]. simpl. intros Hnd. split.
  - intros Hmem. apply sorted_perm.
    apply NoDup_Permutation; [done| |done].
    apply NoDup_list3 in Hnd. apply NoDup_list3.
    pose proof (proj1 (Hmem a)) as Ha.
    pose proof (proj1 (Hmem b)) as Hb.
    pose proof (proj1 (Hmem c)) as Hc.
    rewrite !elem_of_list3 in Ha, Hb, Hc. lia.
  - intros Hs x. apply sorted_eq_perm in Hs. by rewrite Hs.
Qed.

(** C4. Correlating a vertex triple to a face position does not depend
    on the order of the three indices: two orderings of the same indices
    are answered by the lookup with the same optional position. *)
Theorem find_face_index_fast_order (self : EnhancedColorSplitter)
    (v1 v2 v3 w1 w2 w3 : Z) :
  [v1; v2; v3] ≡ₚ [w1; w2; w3] →
  _find_face_index_fast self v1 v2 v3 = _find_face_index_fast self w1 w2 w3.
Proof.
  intros Hp. unfold _find_face_index_fast. by rewrite (sorted_perm _ _ Hp).
Qed.

Lemma find_face_index_fast_order_witness :
  _create_face_lookup
    (set_mesh (Some (SingleMesh one_face_mesh)) (init "model.3mf"))
  = Ok one_face_splitter
  ∧ _find_face_index_fast one_face_splitter 2 0 1 = Some 0%nat
  ∧ _find_face_index_fast one_face_splitter 2 0 1
    = _find_face_index_fast one_face_splitter 0 1 2.
Proof.
  split; [reflexivity|]. split; [by vm_compute|].
  apply find_face_index_fast_order.
  apply (bool_decide_unpack _). by vm_compute.
Defined.

(** C5. After the lookup table is built, a sorted vertex triple leads to
    the last position of the face list whose face has these three
    vertices; when two faces at different positions have the same three
    vertices, the earlier position is not retrievable, the later one (if
    no third follows) is. *)
Theorem create_face_lookup_last_wins (fs : list face) :
  (∀ k i,
     build_lookup fs !! k = Some i
     ↔ (∃ f, fs !! i = Some f ∧ Py.sorted (face_vertices f) = k)
       ∧ ∀ j g, (i < j)%nat → fs !! j = Some g
                → Py.sorted (face_vertices g) ≠ k)
  ∧ (∀ i j f g k,
       (i < j)%nat → fs !! i = Some f → fs !! j = Some g →
       face_vertices f ≡ₚ face_vertices g →
       build_lookup fs !! k ≠ Some i).
Proof.
  split; [apply build_lookup_Some|].
  intros i j f g k Hij Hf Hg Hp Hk.
  apply build_lookup_Some in Hk as [(f' & Hf' & Hk) Hlast].
  apply (Hlast j g Hij Hg).
  rewrite <- Hk. rewrite Hf in Hf'. injection Hf' as <-.
  symmetry. by apply sorted_perm.
Qed.

Lemma create_face_lookup_last_wins_witness :
  build_lookup [(0, 1, 2); (2, 1, 0)] !! [0; 1; 2] = Some 1%nat
  ∧ build_lookup [(0, 1, 2); (2, 1, 0)] !! [0; 1; 2] ≠ Some 0%nat.
Proof.
  split; [by vm_compute|].
  apply (proj2 (create_face_lookup_last_wins [(0, 1, 2); (2, 1, 0)])
           0%nat 1%nat (0, 1, 2) (2, 1, 0) [0; 1; 2]).
  - lia.
  - reflexivity.
  - reflexivity.
  - apply (bool_decide_unpack _). by vm_compute.
Defined.


(** The linear scan and the table agree on meshes without degenerate or
    duplicate faces. *)
Lemma scan_faces_build_lookup (fs : list face) (v1 v2 v3 : Z) :
  (∀ f, f ∈ fs → NoDup (face_vertices f)) →
  (∀ i j f g, fs !! i = Some f → fs !! j = Some g →
              (list_to_set (face_vertices f) : gset Z)
              = list_to_set (face_vertices g) → i = j) →
  build_lookup fs !! Py.sorted [v1; v2; v3] = scan_faces fs v1 v2 v3.
Proof.
  intros Hnd Huniq. unfold scan_faces.
  destruct (list_find _ fs) as [[i f]|] eqn:Hfind; simpl.
  - apply list_find_Some in Hfind as (Hi & Hf & _).
    assert (f ∈ fs) as Hin by (apply list_elem_of_lookup; eauto).
    apply build_lookup_Some. split.
    + exists f. split; [done|]. by apply same_vertex_set_sorted; auto.
    + intros j g Hij Hg Hk.
      assert (g ∈ fs) as Hgin by (apply list_elem_of_lookup; eauto).
      apply same_vertex_set_sorted in Hk; [|by auto].
      unfold same_vertex_set in Hf, Hk.
      assert (i = j) by (eapply Huniq; eauto; congruence). lia.
  - apply list_find_None in Hfind. apply build_lookup_None.
    intros f Hin Hk. rewrite Forall_forall in Hfind.
    apply (Hfind f Hin). by apply same_vertex_set_sorted; auto.
Qed.

(** C7. On a mesh whose faces each have three pairwise distinct vertex
    indices and in which no two faces have the same vertex set, the table
    lookup [_find_face_index_fast] (after [_create_face_lookup]) and the
    linear scan [_find_face_index] return the same optional position for
    every query triple. *)
Theorem find_face_index_fast_refines (self : EnhancedColorSplitter)
    (l : Loaded) (m : Trimesh) :
  mesh self = Some l → first_mesh l = Ok m →
  (∀ f, f ∈ faces m → NoDup (face_vertices f)) →
  (∀ i j f g, faces m !! i = Some f → faces m !! j = Some g →
              (list_to_set (face_vertices f) : gset Z)
              = list_to_set (face_vertices g) → i = j) →
  ∃ self', _create_face_lookup self = Ok self'
    ∧ ∀ v1 v2 v3, _find_face_index self' v1 v2 v3
                  = Ok (_find_face_index_fast self' v1 v2 v3).
Proof.
  intros Hmesh Hfirst Hnd Huniq.
  exists (set_face_lookup (build_lookup (faces m)) self). split.
  - unfold _create_face_lookup. by rewrite Hmesh, Hfirst.
  - intros v1 v2 v3. unfold _find_face_index, _find_face_index_fast. simpl.
    rewrite Hmesh, Hfirst. simpl.
    by rewrite scan_faces_build_lookup.
Qed.

Lemma find_face_index_fast_refines_witness :
  ∃ self', _create_face_lookup three_face_loaded = Ok self'
    ∧ _find_face_index self' 3 1 2 = Ok (Some 1%nat).
Proof.
  destruct (find_face_index_fast_refines three_face_loaded
              (SingleMesh three_face_mesh) three_face_mesh eq_refl eq_refl)
    as (self' & Hcreate & Hfind).
  - intros f Hf. simpl in Hf. rewrite !elem_of_cons, elem_of_nil in Hf.
    destruct Hf as [->|[->|[->|[]]]]; apply NoDup_list3; lia.
  - intros i j f g Hi Hj.
    destruct i as [|[|[|i]]]; destruct j as [|[|[|j]]];
      simpl in Hi, Hj; try done;
      injection Hi as <-; injection Hj as <-; intros He; exfalso;
      apply (f_equal (λ s : gset Z,
                        (bool_decide (0 ∈ s), bool_decide (4 ∈ s)))) in He;
      by vm_compute in He.
  - exists self'. split; [exact Hcreate|]. rewrite Hfind.
    assert (_create_face_lookup three_face_loaded = Ok three_face_splitter)
      as Hrun by reflexivity.
    rewrite Hrun in Hcreate. injection Hcreate as <-. by vm_compute.
Defined.

(** ** Insertion-ordered dictionaries *)

Section DictFacts.
Context {K V : Type} `{EqDecision K}.
Implicit Types (d : Py.dict K V) (k : K) (v : V).

Lemma get_set d k k' v :
  Py.get k' (Py.set k v d) = if decide (k' = k) then Some v else Py.get k' d.
Proof.
  induction d as [|[k0 v0] d IH]; simpl.
  - by repeat case_decide.
  - destruct (decide (k = k0)) as [->|Hne]; simpl.
    + by repeat case_decide.
    + rewrite IH. repeat case_decide; congruence.
Qed.

Lemma get_set_eq d k v : Py.get k (Py.set k v d) = Some v.
Proof. rewrite get_set. by case_decide. Qed.

Lemma get_set_ne d k k' v : k' ≠ k → Py.get k' (Py.set k v d) = Py.get k' d.
Proof. intros. rewrite get_set. by case_decide. Qed.

Lemma get_None d k : Py.get k d = None ↔ k ∉ Py.keys d.
Proof.
  unfold Py.keys. induction d as [|[k0 v0] d IH]; simpl.
  - split; [intros _; apply not_elem_of_nil | done].
  - rewrite not_elem_of_cons. case_decide as Hk; [|rewrite IH]; simpl.
    + split; [done | by intros []].
    + tauto.
Qed.


Lemma elem_get_Some d k v :
  NoDup (Py.keys d) → (k, v) ∈ d → Py.get k d = Some v.
Proof.
  unfold Py.keys. induction d as [|[k0 v0] d IH]; simpl.
  - intros _ Hin. by apply elem_of_nil in Hin.
  - rewrite NoDup_cons. intros [Hk0 Hnd] Hin.
    apply elem_of_cons in Hin as [[= -> ->]|Hin].
    + by case_decide.
    + case_decide as Hk; [|by apply IH].
      subst. destruct Hk0. apply list_elem_of_fmap. by exists (k0, v).
Qed.

Lemma keys_set d k v :
  Py.keys (Py.set k v d)
  = if decide (k ∈ Py.keys d) then Py.keys d else Py.keys d ++ [k].
Proof.
  unfold Py.keys. induction d as [|[k0 v0] d IH]; csimpl.
  - destruct (decide (k ∈ [])) as [Hk|Hk]; [by apply elem_of_nil in Hk | done].
  - destruct (decide (k = k0)) as [->|Hne]; csimpl.
    + destruct (decide (k0 ∈ k0 :: _)) as [Hk|Hk]; [done|].
      destruct Hk. apply elem_of_cons. by left.
    + rewrite IH.
      destruct (decide (k ∈ d.*1)) as [Hin|Hnin];
        destruct (decide (k ∈ k0 :: _)) as [Hin'|Hnin']; try done.
      * destruct Hnin'. apply elem_of_cons. by right.
      * by apply elem_of_cons in Hin' as [?|?].
Qed.

Lemma keys_set_NoDup d k v : NoDup (Py.keys d) → NoDup (Py.keys (Py.set k v d)).
Proof.
  intros Hnd. rewrite keys_set. case_decide as Hk; [done|].
  apply NoDup_app. split_and!; [done| |apply NoDup_singleton].
  intros x Hx Hx'. apply list_elem_of_singleton in Hx'. by subst.
Qed.

End DictFacts.

(** ** Merging paint colors *)

















(** ** Grouping faces by paint color *)

Lemma get_append_to {A} (g : Py.dict Z (list A)) (c c' : Z) (x : A) :
  Py.get c' (Py.append_to c x g)
  = if decide (c' = c) then Some (default [] (Py.get c g) ++ [x])
    else Py.get c' g.
Proof. unfold Py.append_to. apply get_set. Qed.

Lemma paint_color_groups_snoc (m : Trimesh) (fpc : Py.dict nat Z)
    (i : nat) (c : Z) :
  paint_color_groups m (fpc ++ [(i, c)])
  = if (i <? length (faces m))%nat
    then Py.append_to c i (paint_color_groups m fpc)
    else paint_color_groups m fpc.
Proof. unfold paint_color_groups. by rewrite fold_left_app. Qed.

Lemma paint_color_groups_keys_NoDup (m : Trimesh) (fpc : Py.dict nat Z) :
  NoDup (Py.keys (paint_color_groups m fpc)).
Proof.
  induction fpc as [|[i c] fpc IH] using rev_ind; [apply NoDup_nil_2|].
  rewrite paint_color_groups_snoc.
  destruct (_ <? _)%nat; [|done]. by apply keys_set_NoDup.
Qed.






(** *** The domain of the map that [_parse_paint_colors] builds *)




(** ** When the fallbacks run *)


Lemma zip_read_member (a : Archive) (name : string) :
  name ∈ a.*1 → is_Some (zip_read a name).
Proof.
  intros Hin. apply list_elem_of_fmap in Hin as ([n c] & -> & Hin).
  unfold zip_read. apply fmap_is_Some, last_is_Some.
  intros Hnil. by apply (filter_nil_not_elem_of _ _ (n, c) Hnil).
Qed.





(** ** Color groups and [split_by_color] *)

Lemma add_to_color_group_get (self : EnhancedColorSplitter) (m : Trimesh)
    (color_key object_name k : string) :
  Py.get k (color_groups (_add_to_color_group self m color_key object_name))
  = if decide (k = color_key)
    then Some (default [] (Py.get color_key (color_groups self))
               ++ [{| entry_mesh := m; entry_name := object_name |}])
    else Py.get k (color_groups self).
Proof.
  unfold _add_to_color_group, Py.append_to. simpl.
  destruct (Py.get color_key (color_groups self)) as [l|] eqn:Hg.
  - rewrite get_set, Hg. done.
  - rewrite !get_set. case_decide; [|done].
    by rewrite decide_True by done.
Qed.

Lemma add_to_color_group_keys (self : EnhancedColorSplitter) (m : Trimesh)
    (color_key object_name : string) :
  NoDup (Py.keys (color_groups self)) →
  NoDup (Py.keys (color_groups
                    (_add_to_color_group self m color_key object_name))).
Proof.
  intros Hnd. unfold _add_to_color_group, Py.append_to. simpl.
  destruct (Py.get color_key (color_groups self));
    repeat apply keys_set_NoDup; done.
Qed.

(** Grown groups have distinct keys and no empty group. *)
Lemma grown_inv (d : Py.dict string (list Entry)) :
  grown d →
  NoDup (Py.keys d) ∧ ∀ k l, Py.get k d = Some l → l ≠ [].
Proof.
  induction 1 as [|self m color_key object_name _ [IHk IHl]].
  - split; [apply NoDup_nil_2 | done].
  - split; [by apply add_to_color_group_keys|].
    intros k l. rewrite add_to_color_group_get.
    case_decide; [|by apply IHl].
    intros [= <-] Hnil. by apply app_eq_nil in Hnil as [_ ?].
Qed.

Lemma get_snoc {K V} `{EqDecision K} (d : Py.dict K V) (k k0 : K) (v0 : V) :
  k0 ∉ Py.keys d →
  Py.get k (d ++ [(k0, v0)])
  = if decide (k = k0) then Some v0 else Py.get k d.
Proof.
  unfold Py.keys. induction d as [|[k1 v1] d IH]; csimpl; [done|].
  rewrite not_elem_of_cons. intros [Hne Hnin].
  rewrite IH by done. repeat case_decide; congruence.
Qed.

Section Split.

Variable concatenate : list Trimesh → Trimesh.

Lemma split_by_color_get (self : EnhancedColorSplitter) (k : string) :
  NoDup (Py.keys (color_groups self)) →
  Py.get k (split_by_color concatenate self)
  = split_group concatenate <$> Py.get k (color_groups self).
Proof.
  unfold split_by_color. generalize (color_groups self). clear self.
  intros d. induction d as [|[k0 l0] d IH] using rev_ind; [done|].
  intros Hnd. unfold Py.keys in Hnd. rewrite fmap_app in Hnd.
  apply NoDup_app in Hnd as (Hnd & Hk0 & _).
  assert (k0 ∉ Py.keys d) as Hnin.
  { intros Hin. apply (Hk0 k0 Hin). simpl. by apply list_elem_of_singleton. }
  rewrite fold_left_app, get_snoc by done. simpl.
  assert (∀ acc, Py.get k
            match l0 with
            | [e] => Py.set k0 (entry_mesh e) acc
            | _ => Py.set k0 (concatenate (entry_mesh <$> l0)) acc
            end
          = if decide (k = k0) then Some (split_group concatenate l0) else Py.get k acc)
    as ->.
  { intros acc. unfold split_group.
    destruct l0 as [|e [|e' l0]]; apply get_set. }
  case_decide; [done|]. by apply IH.
Qed.

(** C10. A group that collected exactly one submesh yields that very
    submesh, whatever [concatenate] would do to it; [concatenate] is
    applied only to groups of two or more submeshes. *)
Theorem split_by_color_single_unchanged (self : EnhancedColorSplitter)
    (color_key : string) (meshes : list Entry) :
  grown (color_groups self) →
  Py.get color_key (color_groups self) = Some meshes →
  (∀ e, meshes = [e] →
        Py.get color_key (split_by_color concatenate self)
        = Some (entry_mesh e))
  ∧ (length meshes ≠ 1%nat →
     (2 ≤ length meshes)%nat
     ∧ Py.get color_key (split_by_color concatenate self)
       = Some (concatenate (entry_mesh <$> meshes))).
Proof.
  intros Hgrown Hget. apply grown_inv in Hgrown as [Hnd Hne].
  rewrite split_by_color_get, Hget by done. simpl. split.
  - by intros e ->.
  - intros Hlen. pose proof (Hne _ _ Hget) as Hnil.
    destruct meshes as [|e [|e' meshes]]; simpl in *; try done.
    split; [lia|done].
Qed.

End Split.

(** ** The export loop *)

Section ExportFacts.

Variable World : Type.
Variable mkdir : string → World → result World.
Variable export : Trimesh → string → World → World * option exn.
Variable path_join : string → string → string.
Variable stem : string → string.
Variable concatenate : list Trimesh → Trimesh.

Lemma export_loop_calls (self : EnhancedColorSplitter)
    (output_dir format : string) (gs : list (string * Trimesh))
    (r : Run World) :
  let calls := export_calls World export path_join stem self output_dir
                 format gs (world World r) in
  let r' := fold_left (export_one World export path_join stem self
                         output_dir format) gs r in
  call_path <$> calls
  = (λ g, filepath_of path_join stem self output_dir format g.1) <$> gs
  ∧ exported_files World r'
    = exported_files World r ++ (call_path <$> filter succeeded calls)
  ∧ log World r' = log World r ++ (log_record <$> calls).
Proof.
  revert r. induction gs as [|[color_key m] gs IH]; intros r.
  - simpl. by rewrite !app_nil_r.
  - cbn [export_calls fold_left export_one].
    destruct (export m _ (world World r)) as [w' [e|]] eqn:Hex.
    + match goal with
      | |- context [fold_left _ gs ?r1] => specialize (IH r1)
      end.
      cbn [world log exported_files] in IH. destruct IH as (Hp & Hf & Hl).
      rewrite !fmap_cons, filter_cons_False by (by intros []).
      split_and!; [by rewrite Hp | done |].
      rewrite Hl, <- app_assoc. done.
    + match goal with
      | |- context [fold_left _ gs ?r1] => specialize (IH r1)
      end.
      cbn [world log exported_files] in IH. destruct IH as (Hp & Hf & Hl).
      rewrite !fmap_cons, filter_cons_True by exact I. rewrite fmap_cons.
      split_and!; [by rewrite Hp | |].
      * rewrite Hf, <- app_assoc. done.
      * rewrite Hl, <- app_assoc. done.
Qed.

(** C8. Once the output directory exists, [export_split_meshes] calls
    the exporter once for every group, in order, whether earlier calls
    raised or not; every call that raised is logged as an error; and the
    list it returns holds exactly the paths of the calls that did not
    raise. *)
Theorem export_split_meshes_isolates_failures (self : EnhancedColorSplitter)
    (output_dir format : string) (w w1 : World) (l : list (level * string)) :
  mkdir output_dir w = Ok w1 →
  let groups := split_by_color concatenate self in
  let calls := export_calls World export path_join stem self output_dir
                 format groups w1 in
  ∃ r, export_split_meshes World mkdir export path_join stem concatenate
         self output_dir format w l = Ok r
       ∧ call_path <$> calls
         = (λ g, filepath_of path_join stem self output_dir format g.1)
           <$> groups
       ∧ exported_files World r = call_path <$> filter succeeded calls
       ∧ log World r = l ++ (log_record <$> calls).
Proof.
  intros Hmk groups calls. unfold export_split_meshes. rewrite Hmk. simpl.
  eexists. split; [done|].
  destruct (export_loop_calls self output_dir format groups
              {| world := w1; log := l; exported_files := [] |})
    as (Hp & Hf & Hl).
  simpl in Hp, Hf, Hl. by split_and!.
Qed.

End ExportFacts.

(** ** Vertex colors *)

Section VertexColoring.

Variable submesh : Trimesh → selection → submesh_result.






End VertexColoring.

Lemma split_by_color_single_unchanged_witness :
  Py.get "paint_color_5" (color_groups three_groups)
  = Some [{| entry_mesh := one_face_mesh; entry_name := "main_paint_color_5" |}]
  ∧ Py.get "paint_color_5" (split_by_color (λ _, empty_mesh) three_groups)
    = Some one_face_mesh.
Proof.
  split; [reflexivity|].
  refine (proj1 (split_by_color_single_unchanged (λ _, empty_mesh) three_groups
                   "paint_color_5" _ _ eq_refl) _ eq_refl).
  repeat apply grown_add. apply grown_empty.
Defined.

Lemma export_split_meshes_isolates_failures_witness :
  ∃ r, export_split_meshes disk disk_mkdir disk_export join_path stem_model
         join_meshes three_groups "out" "stl" [] [] = Ok r
       ∧ exported_files disk r
         = ["out/model_paint_color_5.stl"; "out/model_paint_color_0.stl"]
       ∧ log disk r
         = [(INFO, "Exported: out/model_paint_color_5.stl");
            (ERROR, "Error exporting paint_color_9: empty mesh");
            (INFO, "Exported: out/model_paint_color_0.stl")].
Proof.
  destruct (export_split_meshes_isolates_failures disk disk_mkdir disk_export
              join_path stem_model join_meshes three_groups "out" "stl"
              [] [] [] eq_refl) as (r & Hr & _ & Hf & Hl).
  exists r. split; [exact Hr|]. split.
  - rewrite Hf. by vm_compute.
  - rewrite Hl. by vm_compute.
Defined.



(** ** Worked examples *)

(** The two patterns on the scenario of the specification. *)
Example findall_scenario :
  Re.findall Re.paint_color_pattern scenario_text = [("0", "1", "2", "5")]
  ∧ Re.findall Re.no_paint_pattern scenario_text = [("1", "2", "3")].
Proof. split; by vm_compute. Qed.

(** The lookahead of the second pattern runs to the end of the line: a
    record without color is not matched when a painted record follows on
    the same line. *)
Example findall_one_line :
  Re.findall Re.paint_color_pattern scenario_on_one_line
  = [("0", "1", "2", "5")]
  ∧ Re.findall Re.no_paint_pattern scenario_on_one_line = [].
Proof. split; by vm_compute. Qed.

(** Faces that repeat a vertex: (0,0,1) and (0,1,1) have the vertex set
    {0,1} in common and different sorted triples, so the table keeps both
    and the linear scan finds the first for either query. *)
Example repeated_vertex_faces :
  build_lookup [(0, 0, 1); (0, 1, 1)] !! [0; 0; 1] = Some 0%nat
  ∧ build_lookup [(0, 0, 1); (0, 1, 1)] !! [0; 1; 1] = Some 1%nat
  ∧ scan_faces [(0, 0, 1); (0, 1, 1)] 0 1 1 = Some 0%nat.
Proof. repeat split; by vm_compute. Qed.

(** The scenario of the specification, through [load_3mf]: face 0 in
    [paint_color_5], face 1 in [paint_color_0], face 2 in no group. *)
Example scenario_groups :
  face_paint_colors (loaded three_face_mesh scenario_archive)
  = Some [(0%nat, 5); (1%nat, 0)]
  ∧ (λ g : string * list Entry, (g.1, (faces ∘ entry_mesh) <$> g.2))
    <$> color_groups (loaded three_face_mesh scenario_archive)
    = [("paint_color_5", [[(0, 1, 2)]]); ("paint_color_0", [[(1, 2, 3)]])].
Proof. split; by vm_compute. Qed.

(** In a scene the map resolved against the first mesh serves every
    object; positions beyond the face count of a smaller object are
    dropped by the guard of [_handle_paint_coloring]. *)
Example scene_reuses_first_map :
  paint_color_groups one_face_mesh [(0%nat, 5); (1%nat, 0)] = [(5, [0%nat])]
  ∧ (entry_name <$>
       default [] (Py.get "paint_color_5"
                     (color_groups
                        (match load_3mf select_faces (init "model.3mf")
                                 two_object_scene scenario_archive with
                         | Ok self => self
                         | Raise _ => init "model.3mf"
                         end))))
    = ["first_paint_color_5"; "second_paint_color_5"].
Proof. split; by vm_compute. Qed.

(** Vertex grays as bytes: the averages 100 and 100.33 are far apart for
    [np.isclose] and still share the key [color_100_100_100]. *)
Example vertex_colors_bytes :
  (λ g : string * list Entry, (g.1, (faces ∘ entry_mesh) <$> g.2))
  <$> color_groups
        (loaded (gray_vertex_mesh [100; 100; 100; 100; 100; 101]%float) [])
  = [("color_100_100_100", [[(0, 1, 2)]; [(3, 4, 5)]])].
Proof. by vm_compute. Qed.

(** Without an object file a fallback runs: a material gives one group
    for the whole mesh. *)
Example material_fallback :
  Py.keys (color_groups
             (loaded {| vertices := []; faces := [(0, 1, 2); (1, 2, 3)];
                        visual := Some (TextureVisuals
                                          {| diffuse := Some (ColorArray
                                               [1; 0; 0; 1]%float) |}) |}
                     []))
  = ["color_255_0_0"].
Proof. by vm_compute. Qed.

(** ** The groups [load_3mf] leaves behind *)

Section Reachable.

Variable submesh : Trimesh → selection → submesh_result.








End Reachable.

(** * Further properties *)

(** ** Correlation hits and misses *)

(** X1. Once the table is built for a mesh, a hit of
    [_find_face_index_fast] is the position of a face with the three
    vertices of the query, in some order, and a miss means that no face
    of the mesh has them. *)
Theorem find_face_index_fast_sound (self : EnhancedColorSplitter)
    (l : Loaded) (m : Trimesh) :
  mesh self = Some l → first_mesh l = Ok m →
  ∃ self', _create_face_lookup self = Ok self'
    ∧ (∀ v1 v2 v3 i,
         _find_face_index_fast self' v1 v2 v3 = Some i →
         ∃ f, faces m !! i = Some f ∧ face_vertices f ≡ₚ [v1; v2; v3])
    ∧ (∀ v1 v2 v3,
         _find_face_index_fast self' v1 v2 v3 = None
         ↔ ∀ f, f ∈ faces m → ¬ face_vertices f ≡ₚ [v1; v2; v3]).
Proof.
  intros Hmesh Hfirst.
  exists (set_face_lookup (build_lookup (faces m)) self). split_and!.
  - unfold _create_face_lookup. by rewrite Hmesh, Hfirst.
  - intros v1 v2 v3 i. unfold _find_face_index_fast. simpl.
    intros [(f & Hf & Hk) _]%build_lookup_Some.
    exists f. split; [done|]. by apply sorted_eq_perm.
  - intros v1 v2 v3. unfold _find_face_index_fast. simpl.
    rewrite build_lookup_None. split.
    + intros Hmiss f Hf Hp. apply (Hmiss f Hf). by apply sorted_perm.
    + intros Hmiss f Hf Hk. apply (Hmiss f Hf). by apply sorted_eq_perm.
Qed.

Lemma find_face_index_fast_sound_witness :
  ∃ self', _create_face_lookup three_face_loaded = Ok self'
    ∧ _find_face_index_fast self' 0 1 4 = None
    ∧ _find_face_index_fast self' 4 2 3 = Some 2%nat.
Proof.
  destruct (find_face_index_fast_sound three_face_loaded
              (SingleMesh three_face_mesh) three_face_mesh eq_refl eq_refl)
    as (self' & Hcreate & _ & _).
  exists self'. split; [exact Hcreate|].
  assert (_create_face_lookup three_face_loaded = Ok three_face_splitter)
    as Hrun by reflexivity.
  rewrite Hrun in Hcreate. injection Hcreate as <-. split; by vm_compute.
Defined.

(** X2. On a mesh whose faces each have three distinct vertices, faces
    with the same vertices may repeat: the linear scan and the table then
    hit and miss together, the scan returns the first such position and
    the table a position that is not before it. *)
Theorem find_face_index_first_and_last (self : EnhancedColorSplitter)
    (l : Loaded) (m : Trimesh) :
  mesh self = Some l → first_mesh l = Ok m →
  (∀ f, f ∈ faces m → NoDup (face_vertices f)) →
  ∃ self', _create_face_lookup self = Ok self'
    ∧ ∀ v1 v2 v3,
        match _find_face_index self' v1 v2 v3 with
        | Ok (Some i) =>
            ∃ j, _find_face_index_fast self' v1 v2 v3 = Some j ∧ (i ≤ j)%nat
        | Ok None => _find_face_index_fast self' v1 v2 v3 = None
        | Raise _ => False
        end.
Proof.
  intros Hmesh Hfirst Hnd.
  exists (set_face_lookup (build_lookup (faces m)) self). split.
  { unfold _create_face_lookup. by rewrite Hmesh, Hfirst. }
  intros v1 v2 v3. unfold _find_face_index, _find_face_index_fast. simpl.
  rewrite Hmesh, Hfirst. simpl. unfold scan_faces.
  destruct (list_find _ (faces m)) as [[i f]|] eqn:Hfind; simpl.
  - apply list_find_Some in Hfind as (Hi & Hf & Hbefore).
    assert (f ∈ faces m) as Hin by (apply list_elem_of_lookup; eauto).
    apply same_vertex_set_sorted in Hf; [|by auto].
    destruct (build_lookup (faces m) !! Py.sorted [v1; v2; v3])
      as [j|] eqn:Hj.
    + exists j. split; [done|].
      apply build_lookup_Some in Hj as [_ Hlast].
      destruct (decide (i ≤ j)%nat) as [|Hlt]; [done|].
      destruct (Hlast i f); [lia|done..].
    + by destruct (proj1 (build_lookup_None _ _) Hj f Hin).
  - apply list_find_None in Hfind. rewrite Forall_forall in Hfind.
    apply build_lookup_None. intros f Hin Hk.
    apply (Hfind f Hin). by apply same_vertex_set_sorted; auto.
Qed.

(** Two faces with the vertices 0, 1, 2 around a third face. *)
Lemma find_face_index_first_and_last_witness :
  ∃ self',
    _create_face_lookup
      (set_mesh (Some (SingleMesh {| vertices := [];
                                     faces := [(0, 1, 2); (1, 2, 3); (2, 0, 1)];
                                     visual := None |}))
         (init "model.3mf")) = Ok self'
    ∧ _find_face_index self' 1 0 2 = Ok (Some 0%nat)
    ∧ _find_face_index_fast self' 1 0 2 = Some 2%nat.
Proof.
  destruct (find_face_index_first_and_last
              (set_mesh (Some (SingleMesh
                                 {| vertices := [];
                                    faces := [(0, 1, 2); (1, 2, 3); (2, 0, 1)];
                                    visual := None |}))
                 (init "model.3mf")) _ _ eq_refl eq_refl)
    as (self' & Hcreate & _).
  - intros f Hf. simpl in Hf. rewrite !elem_of_cons, elem_of_nil in Hf.
    destruct Hf as [->|[->|[->|[]]]]; apply NoDup_list3; lia.
  - exists self'. split; [exact Hcreate|].
    injection Hcreate as <-. split; by vm_compute.
Defined.

(** ** What [_parse_paint_colors] keeps and what it resets *)





(** ** Growing the color groups *)

(** X5. [_add_to_color_group] appends: the new member goes to the end
    of its group, no other group changes, the keys keep their order with
    a new key placed last, and nothing else of the splitter changes. *)
Theorem add_to_color_group_appends (self : EnhancedColorSplitter)
    (m : Trimesh) (color_key object_name : string) :
  let self' := _add_to_color_group self m color_key object_name in
  Py.get color_key (color_groups self')
  = Some (default [] (Py.get color_key (color_groups self))
          ++ [{| entry_mesh := m; entry_name := object_name |}])
  ∧ (∀ k, k ≠ color_key →
          Py.get k (color_groups self') = Py.get k (color_groups self))
  ∧ Py.keys (color_groups self')
    = (if decide (color_key ∈ Py.keys (color_groups self))
       then Py.keys (color_groups self)
       else Py.keys (color_groups self) ++ [color_key])
  ∧ set_color_groups (color_groups self) self' = self.
Proof.
  split_and!.
  - rewrite add_to_color_group_get. by rewrite decide_True.
  - intros k Hk. rewrite add_to_color_group_get. by rewrite decide_False.
  - unfold _add_to_color_group, Py.append_to. simpl.
    destruct (Py.get color_key (color_groups self)) as [g|] eqn:Hg.
    + rewrite keys_set. destruct (decide _) as [|Hnin]; [done|].
      destruct Hnin. apply dec_stable. intros Hnin.
      apply get_None in Hnin. congruence.
    + apply get_None in Hg as Hnin. rewrite !keys_set.
      rewrite (decide_False _ _ Hnin).
      rewrite decide_True; [done|].
      apply elem_of_app. right. by apply list_elem_of_singleton.
  - by destruct self.
Qed.

(** ** One mesh and one report line per group *)

Lemma fold_set_fmap {K V W} `{EqDecision K} (f : K → V → W)
    (d : Py.dict K V) :
  NoDup (Py.keys d) →
  fold_left (λ acc '(k, v), Py.set k (f k v) acc) d []
  = (λ '(k, v), (k, f k v)) <$> d.
Proof.
  induction d as [|[k v] d IH] using rev_ind; [done|].
  intros Hnd. unfold Py.keys in Hnd. rewrite fmap_app in Hnd.
  apply NoDup_app in Hnd as (Hnd & Hk & _).
  rewrite fold_left_app, fmap_app, IH by done. simpl.
  assert (k ∉ Py.keys ((λ '(k, v), (k, f k v)) <$> d)) as Hnin.
  { unfold Py.keys. rewrite <- list_fmap_compose.
    intros Hin. apply (Hk k).
    - apply list_elem_of_fmap in Hin as ([k' v'] & -> & Hin).
      apply list_elem_of_fmap. by exists (k', v').
    - simpl. by apply list_elem_of_singleton. }
  clear -Hnin. induction (_ <$> d) as [|[k' w'] d' IH']; [done|].
  simpl. unfold Py.keys in Hnin. rewrite fmap_cons in Hnin.
  apply not_elem_of_cons in Hnin as [Hne Hnin]. simpl in Hne.
  rewrite decide_False by done. by rewrite IH'.
Qed.

Lemma split_by_color_fmap (concatenate : list Trimesh → Trimesh)
    (self : EnhancedColorSplitter) :
  NoDup (Py.keys (color_groups self)) →
  split_by_color concatenate self
  = (λ '(color_key, meshes), (color_key, split_group concatenate meshes))
    <$> color_groups self.
Proof.
  intros Hnd.
  rewrite <- (fold_set_fmap (λ _, split_group concatenate)) by done.
  unfold split_by_color. generalize (@nil (string * Trimesh)).
  clear Hnd. induction (color_groups self) as [|[k g] d IH];
    [intros; reflexivity|].
  intros acc. simpl. rewrite <- IH. by destruct g as [|e [|e' g]].
Qed.

(** X6. When the keys of [color_groups] are distinct, as they are after
    any load, [split_by_color] returns one mesh per group, under the
    same keys in the same order: the single member of a group of one, the
    concatenation of the members otherwise. *)
Theorem split_by_color_per_group (concatenate : list Trimesh → Trimesh)
    (self : EnhancedColorSplitter) :
  grown (color_groups self) →
  split_by_color concatenate self
  = (λ '(color_key, meshes), (color_key, split_group concatenate meshes))
    <$> color_groups self
  ∧ Py.keys (split_by_color concatenate self) = Py.keys (color_groups self).
Proof.
  intros [Hnd _]%grown_inv.
  pose proof (split_by_color_fmap concatenate self Hnd) as Hsplit.
  split; [done|]. rewrite Hsplit. unfold Py.keys.
  rewrite <- list_fmap_compose. apply list_fmap_ext. by intros i [k g].
Qed.

Lemma split_by_color_per_group_witness :
  Py.keys (split_by_color join_meshes three_groups)
  = ["paint_color_5"; "paint_color_9"; "paint_color_0"].
Proof.
  destruct (split_by_color_per_group join_meshes three_groups) as [_ ->].
  - repeat apply grown_add. apply grown_empty.
  - reflexivity.
Defined.

(** ** The paint color registry *)

Lemma paint_key_inj (c1 c2 : Z) : paint_key c1 = paint_key c2 → c1 = c2.
Proof.
  unfold paint_key. intros H%String.app_inj. by apply pretty_Z_inj in H.
Qed.

Lemma paint_color_groups_nonempty (m : Trimesh) (fpc : Py.dict nat Z)
    (c : Z) (l : list nat) :
  Py.get c (paint_color_groups m fpc) = Some l → l ≠ [].
Proof.
  revert l. induction fpc as [|[j cj] fpc IH] using rev_ind; [done|].
  intros l. rewrite paint_color_groups_snoc.
  destruct (_ <? _)%nat; [|by apply IH].
  rewrite get_append_to. case_decide; [|by apply IH].
  intros [= <-] Hnil. by apply app_eq_nil in Hnil as [_ ?].
Qed.

Section PaintRegistry.

Variable submesh : Trimesh → selection → submesh_result.

Lemma handle_paint_coloring_steps (self : EnhancedColorSplitter)
    (m : Trimesh) (object_name : string) (fpc : Py.dict nat Z) :
  face_paint_colors self = Some fpc →
  _handle_paint_coloring submesh self m object_name
  = fold_left (paint_step submesh m object_name) (paint_color_groups m fpc) self.
Proof.
  intros Hfpc. unfold _handle_paint_coloring. rewrite Hfpc.
  generalize self. clear Hfpc.
  induction (paint_color_groups m fpc) as [|[c l] G IH]; [done|].
  intros s. simpl. rewrite IH. by destruct l.
Qed.

Lemma paint_step_get (m : Trimesh) (object_name : string)
    (self : EnhancedColorSplitter) (c : Z) (l : list nat) (k : string) :
  k ≠ paint_key c →
  Py.get k (color_groups (paint_step submesh m object_name self (c, l)))
  = Py.get k (color_groups self)
  ∧ Py.get k (paint_colors (paint_step submesh m object_name self (c, l)))
    = Py.get k (paint_colors self).
Proof.
  intros Hk. unfold paint_step.
  destruct l as [|i l]; [done|]. destruct (picked _) as [sub|]; [|done].
  simpl. rewrite get_set, decide_False by done. split; [|done].
  etrans; [apply add_to_color_group_get|]. by rewrite decide_False.
Qed.

Lemma paint_steps_get (m : Trimesh) (object_name : string)
    (G : list (Z * list nat)) (self : EnhancedColorSplitter) (k : string) :
  (∀ c l, (c, l) ∈ G → k ≠ paint_key c) →
  Py.get k (color_groups (fold_left (paint_step submesh m object_name) G self))
  = Py.get k (color_groups self)
  ∧ Py.get k (paint_colors (fold_left (paint_step submesh m object_name) G self))
    = Py.get k (paint_colors self).
Proof.
  revert self. induction G as [|[c l] G IH]; intros self Hk; [done|].
  cbn [fold_left].
  destruct (IH (paint_step submesh m object_name self (c, l))) as [-> ->].
  { intros c' l' Hin. apply (Hk c' l'). by right. }
  apply paint_step_get. apply (Hk c l). by left.
Qed.

(** X7. [_handle_paint_coloring] gives every paint color that has a
    face of the mesh, and for which [submesh] delivers a mesh, exactly one
    new member in the group named after it, and enters the id in the
    registry under that name; groups and registry entries of other names
    are left as they were. *)
Theorem handle_paint_coloring_registers (self : EnhancedColorSplitter)
    (m : Trimesh) (object_name : string) (fpc : Py.dict nat Z) :
  face_paint_colors self = Some fpc →
  let self' := _handle_paint_coloring submesh self m object_name in
  (∀ c l sub,
     (c, l) ∈ paint_color_groups m fpc →
     picked (submesh m (Indices l)) = Some sub →
     Py.get (paint_key c) (color_groups self')
     = Some (default [] (Py.get (paint_key c) (color_groups self))
             ++ [{| entry_mesh := sub;
                    entry_name := object_name +:+ "_" +:+ paint_key c |}])
     ∧ Py.get (paint_key c) (paint_colors self') = Some c)
  ∧ (∀ k, (∀ c l, (c, l) ∈ paint_color_groups m fpc → k ≠ paint_key c) →
          Py.get k (color_groups self') = Py.get k (color_groups self)
          ∧ Py.get k (paint_colors self') = Py.get k (paint_colors self)).
Proof.
  intros Hfpc self'. unfold self'.
  rewrite (handle_paint_coloring_steps _ _ _ _ Hfpc). split.
  - pose proof (paint_color_groups_keys_NoDup m fpc) as Hnd.
    assert (∀ c l, (c, l) ∈ paint_color_groups m fpc → l ≠ []) as Hne.
    { intros c l Hin. apply (paint_color_groups_nonempty m fpc c).
      by apply elem_get_Some. }
    revert Hnd Hne. generalize self. clear.
    induction (paint_color_groups m fpc) as [|[c0 l0] G IH];
      intros self Hnd Hne c l sub Hin Hsub.
    { by apply elem_of_nil in Hin. }
    unfold Py.keys in Hnd. rewrite fmap_cons in Hnd.
    apply NoDup_cons in Hnd as [Hc0 Hnd]. simpl in Hc0.
    cbn [fold_left]. apply elem_of_cons in Hin as [[= -> ->]|Hin].
    + destruct (paint_steps_get m object_name G
                  (paint_step submesh m object_name self (c0, l0)) (paint_key c0))
        as [-> ->].
      { intros c' l' Hin' Heq. apply paint_key_inj in Heq as ->.
        apply Hc0. apply list_elem_of_fmap. by exists (c', l'). }
      unfold paint_step. destruct l0 as [|i l0].
      { destruct (Hne c0 []); [by left|done]. }
      rewrite Hsub. simpl. rewrite get_set_eq. split; [|done].
      etrans; [apply add_to_color_group_get|]. by rewrite decide_True.
    + assert (c ≠ c0) as Hne0.
      { intros ->. apply Hc0. apply list_elem_of_fmap. by exists (c0, l). }
      destruct (IH (paint_step submesh m object_name self (c0, l0)) Hnd) with c l sub
        as [-> ->]; [|done..|].
      { intros c' l' Hin'. apply (Hne c' l'). by right. }
      destruct (paint_step_get m object_name self c0 l0 (paint_key c))
        as [-> _]; [|done].
      intros Heq. by apply paint_key_inj in Heq.
  - intros k Hk. by apply paint_steps_get.
Qed.

End PaintRegistry.

Lemma handle_paint_coloring_registers_witness :
  Py.get (paint_key 0)
    (paint_colors (loaded three_face_mesh scenario_archive)) = Some 0
  ∧ (entry_name <$>
       default [] (Py.get (paint_key 0)
                     (color_groups (loaded three_face_mesh scenario_archive))))
    = ["main_paint_color_0"].
Proof.
  assert (loaded three_face_mesh scenario_archive
          = _handle_paint_coloring select_faces
              (extracted three_face_loaded scenario_archive)
              three_face_mesh "main") as -> by (by vm_compute).
  destruct (handle_paint_coloring_registers select_faces
              (extracted three_face_loaded scenario_archive)
              three_face_mesh "main" [(0%nat, 5); (1%nat, 0)])
    as [Hreg _]; [by vm_compute|].
  destruct (Hreg 0 [1%nat] {| vertices := []; faces := [(1, 2, 3)];
                              visual := None |}) as [Hgroup Hid].
  - apply (bool_decide_unpack _). by vm_compute.
  - reflexivity.
  - split; [exact Hid|]. rewrite Hgroup. reflexivity.
Defined.

(** ** The color report *)

Lemma get_fmap_dict {K V W} `{EqDecision K} (f : K → V → W)
    (d : Py.dict K V) (k : K) :
  Py.get k ((λ '(k, v), (k, f k v)) <$> d) = f k <$> Py.get k d.
Proof.
  induction d as [|[k0 v0] d IH]; [done|]. csimpl.
  case_decide; [by subst | done].
Qed.


(** X8. When the groups are those a load leaves, [get_color_info]
    reports one entry per group, in the order of the groups, with the
    number of members, at least one, and the id registered under the
    key; the total it reports is the number of entries and the number of
    meshes [split_by_color] returns. *)
Theorem get_color_info_per_group (self : EnhancedColorSplitter) :
  grown (color_groups self) →
  colors (get_color_info self)
  = (λ '(k, meshes),
       (k, {| mesh_count := length meshes;
              paint_info := Py.get k (paint_colors self) |}))
    <$> color_groups self
  ∧ total_color_groups (get_color_info self)
    = length (colors (get_color_info self))
  ∧ (∀ concatenate,
       total_color_groups (get_color_info self)
       = length (split_by_color concatenate self))
  ∧ (∀ k g, Py.get k (colors (get_color_info self)) = Some g →
            (1 ≤ mesh_count g)%nat).
Proof.
  intros [Hnd Hne]%grown_inv.
  assert (colors (get_color_info self)
          = (λ '(k, meshes),
               (k, {| mesh_count := length meshes;
                      paint_info := Py.get k (paint_colors self) |}))
            <$> color_groups self) as Hcolors.
  { unfold get_color_info. simpl.
    by rewrite <- (fold_set_fmap
                     (λ k meshes,
                        {| mesh_count := length meshes;
                           paint_info := Py.get k (paint_colors self) |})). }
  split_and!; [done| | |].
  - rewrite Hcolors, length_fmap. done.
  - intros concatenate. rewrite split_by_color_fmap, length_fmap by done.
    done.
  - intros k g. rewrite Hcolors, get_fmap_dict.
    destruct (Py.get k (color_groups self)) as [meshes|] eqn:Hg; [|done].
    intros [= <-]. simpl. pose proof (Hne k meshes Hg).
    destruct meshes; [done | simpl; lia].
Qed.

Lemma get_color_info_per_group_witness :
  get_color_info three_groups
  = {| total_color_groups := 3;
       colors := [("paint_color_5", {| mesh_count := 1; paint_info := None |});
                  ("paint_color_9", {| mesh_count := 1; paint_info := None |});
                  ("paint_color_0", {| mesh_count := 2; paint_info := None |})] |}
  ∧ total_color_groups (get_color_info three_groups)
    = length (split_by_color join_meshes three_groups).
Proof.
  split; [reflexivity|].
  destruct (get_color_info_per_group three_groups) as (_ & _ & Hsplit & _).
  - repeat apply grown_add. apply grown_empty.
  - apply Hsplit.
Defined.

(** ** A load in paint mode *)



Section PaintMode.

Variable submesh : Trimesh → selection → submesh_result.






End PaintMode.


(** ** Loads without color information *)

(** X10. A scene without any object: with no object file in the archive
    [load_3mf] returns and leaves no group; with an object file it raises
    [IndexError], from the first-mesh access of [_create_face_lookup]. *)
Theorem load_3mf_empty_scene
    (submesh : Trimesh → selection → submesh_result)
    (self : EnhancedColorSplitter) (a : Archive) :
  load_3mf submesh self (Scene []) a
  = if decide (object_files a = [])
    then Ok (set_mesh (Some (Scene [])) self)
    else Raise IndexError.
Proof.
  unfold load_3mf, _extract_paint_colors.
  destruct (object_files a) as [|f fs] eqn:Hfiles.
  - by rewrite decide_True.
  - rewrite decide_False by done.
    destruct (zip_read_member a f) as [content ->]; [|done].
    assert (f ∈ object_files a) as Hin by (rewrite Hfiles; by left).
    unfold object_files in Hin. by apply list_elem_of_filter in Hin as [_ ?].
Qed.

Lemma for_each_default (submesh : Trimesh → selection → submesh_result)
    (geometry : list (string * Trimesh)) (self : EnhancedColorSplitter) :
  face_paint_colors self = None →
  Forall (λ o, colorless o.2 = true) geometry →
  for_each (λ self '(name, m),
              _extract_materials_from_mesh_with_paint submesh self m name)
    geometry self
  = Ok (fold_left (λ self '(name, m), _add_to_color_group self m "default" name)
          geometry self).
Proof.
  intros Hfpc Hall. revert self Hfpc.
  induction Hall as [|[name m] geometry Hm _ IH]; intros self Hfpc; [done|].
  cbn [for_each fold_left].
  assert (_extract_materials_from_mesh_with_paint submesh self m name
          = Ok (_add_to_color_group self m "default" name)) as ->.
  { unfold _extract_materials_from_mesh_with_paint, coloring_strategy.
    rewrite Hfpc. unfold has_material, has_vertex_colors,
      _handle_material_coloring, _handle_vertex_coloring.
    simpl in Hm. unfold colorless in Hm.
    destruct (visual m) as [[mat|[[|r rs]|]|]|]; try done.
    destruct (diffuse mat); [done|done]. }
  simpl. by apply IH.
Qed.

Lemma fold_default_groups (geometry : list (string * Trimesh))
    (self : EnhancedColorSplitter) (es : list Entry) :
  color_groups self = [("default", es)] →
  color_groups
    (fold_left (λ self '(name, m), _add_to_color_group self m "default" name)
       geometry self)
  = [("default", es ++ ((λ '(name, m), {| entry_mesh := m; entry_name := name |})
                          <$> geometry))].
Proof.
  revert self es. induction geometry as [|[name m] geometry IH];
    intros self es Hg.
  { by rewrite app_nil_r. }
  cbn [fold_left]. rewrite (IH _ (es ++ [{| entry_mesh := m;
                                            entry_name := name |}])).
  - by rewrite <- app_assoc.
  - unfold _add_to_color_group, Py.append_to. by rewrite Hg.
Qed.

(** X11. Without an object file in the archive, objects that carry no
    color (no visual, a material without [diffuse], no or no rows of vertex
    colors) are collected whole, in the order of the scene, in the one
    group "default"; a single mesh goes there under the name "main". No
    other group is made and nothing is registered as a paint color. *)
Theorem load_3mf_default_group
    (submesh : Trimesh → selection → submesh_result)
    (input_file : string) (l : Loaded) (a : Archive) :
  object_files a = [] →
  objects l ≠ [] →
  Forall (λ o, colorless o.2 = true) (objects l) →
  ∃ self',
    load_3mf submesh (init input_file) l a = Ok self'
    ∧ color_groups self'
      = [("default",
          (λ '(name, m), {| entry_mesh := m; entry_name := name |})
          <$> objects l)]
    ∧ paint_colors self' = []
    ∧ face_paint_colors self' = None.
Proof.
  intros Ha Hne Hall.
  assert (∀ (geometry : list (string * Trimesh)) (s : EnhancedColorSplitter),
            geometry ≠ [] → color_groups s = [] →
            color_groups
              (fold_left (λ self '(name, m),
                            _add_to_color_group self m "default" name)
                 geometry s)
            = [("default",
                (λ '(name, m), {| entry_mesh := m; entry_name := name |})
                <$> geometry)]) as Hgroups.
  { intros [|[name m] geometry] s Hg Hs; [done|]. cbn [fold_left].
    rewrite (fold_default_groups _ _ [{| entry_mesh := m;
                                         entry_name := name |}]); [done|].
    unfold _add_to_color_group, Py.append_to. by rewrite Hs. }
  assert (∀ (geometry : list (string * Trimesh)) (s : EnhancedColorSplitter),
            paint_colors
              (fold_left (λ self '(name, m),
                            _add_to_color_group self m "default" name)
                 geometry s) = paint_colors s
            ∧ face_paint_colors
                (fold_left (λ self '(name, m),
                              _add_to_color_group self m "default" name)
                   geometry s) = face_paint_colors s) as Hkeeps.
  { intros geometry. induction geometry as [|[name m] geometry IH];
      intros s; [done|].
    cbn [fold_left]. destruct (IH (_add_to_color_group s m "default" name))
      as [-> ->]. done. }
  unfold load_3mf, _extract_paint_colors. rewrite Ha. simpl.
  destruct l as [m|geometry].
  - unfold _process_single_mesh_with_paint. simpl.
    simpl in Hall. apply Forall_cons in Hall as [Hm _].
    pose proof (for_each_default submesh [("main", m)]
                  (set_mesh (Some (SingleMesh m)) (init input_file))
                  eq_refl) as Hrun.
    cbn [for_each fold_left] in Hrun.
    destruct (_extract_materials_from_mesh_with_paint _ _ _ _) as [s|e].
    + specialize (Hrun ltac:(by constructor)). simpl in Hrun.
      injection Hrun as ->. eexists. split; [done|]. by vm_compute.
    + specialize (Hrun ltac:(by constructor)). done.
  - unfold _process_scene_with_paint. simpl. simpl in Hall, Hne.
    rewrite for_each_default by done. eexists. split; [done|].
    split; [by apply Hgroups|]. apply Hkeeps.
Qed.

Lemma load_3mf_default_group_witness :
  ∃ self',
    load_3mf select_faces (init "model.3mf") two_object_scene [] = Ok self'
    ∧ color_groups self'
      = [("default", [{| entry_mesh := three_face_mesh; entry_name := "first" |};
                      {| entry_mesh := one_face_mesh;
                         entry_name := "second" |}])].
Proof.
  destruct (load_3mf_default_group select_faces "model.3mf" two_object_scene [])
    as (self' & Hload & Hgroups & _).
  - reflexivity.
  - done.
  - repeat constructor.
  - exists self'. split; [exact Hload|]. rewrite Hgroups. reflexivity.
Defined.

(** ** Color keys *)

Lemma channel_byte (n : Z) :
  0 ≤ n ≤ 255 → channel (byte_float n) = Ok (byte_key n).
Proof.
  intros Hn.
  assert (forallb (λ n, match channel (byte_float n) with
                        | Ok k => k =? byte_key n
                        | Raise _ => false
                        end) (seqZ 0 256) = true) as Hall
    by (by vm_compute).
  rewrite forallb_forall in Hall. specialize (Hall n).
  destruct (channel (byte_float n)) as [k|e].
  - f_equal. apply Z.eqb_eq, Hall, list_elem_of_In, elem_of_seqZ. lia.
  - discriminate Hall. apply list_elem_of_In, elem_of_seqZ. lia.
Qed.

(** X12. The key of a color given in bytes: the first three channels are
    written out as they are, except that the byte 1 is taken for the top
    of the unit interval and written as 255; further channels, such as
    alpha, play no part. *)
Theorem color_to_key_bytes (r g b : Z) (rest : Np.row) :
  0 ≤ r ≤ 255 → 0 ≤ g ≤ 255 → 0 ≤ b ≤ 255 →
  _color_to_key
    (ColorArray (byte_float r :: byte_float g :: byte_float b :: rest))
  = Ok ("color_" +:+ pretty (byte_key r) +:+ "_" +:+ pretty (byte_key g)
          +:+ "_" +:+ pretty (byte_key b)).
Proof.
  intros Hr Hg Hb. unfold _color_to_key. cbn [take mapM].
  rewrite !channel_byte by done. reflexivity.
Qed.

Lemma color_to_key_bytes_witness :
  _color_to_key (ColorArray [byte_float 1; byte_float 128; byte_float 0;
                             byte_float 255])
  = Ok "color_255_128_0"
  ∧ _color_to_key (ColorArray [byte_float 255; byte_float 128; byte_float 0])
    = Ok "color_255_128_0".
Proof.
  split.
  - rewrite (color_to_key_bytes 1 128 0 [byte_float 255]) by lia. reflexivity.
  - by vm_compute.
Defined.

(** X13. A color with fewer than three channels has no key:
    [_color_to_key] raises, and so does [_handle_material_coloring] for a
    material with such a [diffuse]. *)
Theorem color_to_key_short (c : Np.row) :
  (length c < 3)%nat →
  (∃ e, _color_to_key (ColorArray c) = Raise e)
  ∧ ∀ self m object_name,
      visual m = Some (TextureVisuals {| diffuse := Some (ColorArray c) |}) →
      ∃ e, _handle_material_coloring self m object_name = Raise e.
Proof.
  intros Hc.
  assert (∃ e, _color_to_key (ColorArray c) = Raise e) as [e He].
  { unfold _color_to_key.
    destruct c as [|x [|y [|z c]]]; [| | |simpl in Hc; lia]; cbn [take mapM].
    - by eexists.
    - destruct (channel x); by eexists.
    - destruct (channel x); [|by eexists]. destruct (channel y); by eexists. }
  split; [by exists e|].
  intros self m object_name Hm. exists e.
  unfold _handle_material_coloring. rewrite Hm. cbn [diffuse].
  by rewrite He.
Qed.

Lemma color_to_key_short_witness :
  _color_to_key (ColorArray [1; 0]%float) = Raise IndexError.
Proof.
  destruct (color_to_key_short [1; 0]%float) as [[e He] _]; [simpl; lia|].
  rewrite He. vm_compute in He. by injection He as <-.
Defined.

(** ** One file per group *)

Lemma length_append (s1 s2 : string) :
  String.length (s1 +:+ s2) = (String.length s1 + String.length s2)%nat.
Proof. induction s1 as [|c s1 IH]; simpl; [done | by rewrite IH]. Qed.

Lemma append_inj_r (s1 s2 t : string) : s1 +:+ t = s2 +:+ t → s1 = s2.
Proof.
  revert s2. induction s1 as [|c s1 IH]; intros [|c' s2] Heq.
  - done.
  - apply (f_equal String.length) in Heq.
    rewrite !length_append in Heq. simpl in Heq. lia.
  - apply (f_equal String.length) in Heq.
    rewrite !length_append in Heq. simpl in Heq. lia.
  - simpl in Heq. injection Heq as -> Heq. f_equal. by apply IH.
Qed.

Section OneFilePerGroup.

Variable World : Type.
Variable mkdir : string → World → result World.
Variable export : Trimesh → string → World → World * option exn.
Variable path_join : string → string → string.
Variable stem : string → string.
Variable concatenate : list Trimesh → Trimesh.

Lemma filename_inj (base_name format k1 k2 : string) :
  base_name +:+ "_" +:+ k1 +:+ "." +:+ format
  = base_name +:+ "_" +:+ k2 +:+ "." +:+ format →
  k1 = k2.
Proof.
  intros Heq. apply String.app_inj, String.app_inj in Heq.
  by apply append_inj_r in Heq.
Qed.

(** X14. When the groups are those a load leaves, and joining the output
    directory with the file names of the groups keeps different names
    apart, no two calls of the exporter are given the same path: no
    group's file is written over by another group's, and the paths
    [export_split_meshes] returns are pairwise distinct, one for each group
    at most. *)
Theorem export_split_meshes_distinct_paths (self : EnhancedColorSplitter)
    (output_dir format : string) (w w1 : World) (l : list (level * string)) :
  grown (color_groups self) →
  (∀ k1 k2,
     k1 ∈ Py.keys (color_groups self) → k2 ∈ Py.keys (color_groups self) →
     let filename k := stem (input_file self) +:+ "_" +:+ k +:+ "." +:+ format in
     path_join output_dir (filename k1) = path_join output_dir (filename k2) →
     filename k1 = filename k2) →
  mkdir output_dir w = Ok w1 →
  ∃ r, export_split_meshes World mkdir export path_join stem concatenate
         self output_dir format w l = Ok r
       ∧ NoDup (call_path <$>
                  export_calls World export path_join stem self output_dir
                    format (split_by_color concatenate self) w1)
       ∧ NoDup (exported_files World r)
       ∧ (length (exported_files World r) ≤ length (color_groups self))%nat.
Proof.
  intros [Hnd _]%grown_inv Hjoin Hmk.
  unfold export_split_meshes. rewrite Hmk. simpl. eexists. split; [done|].
  destruct (export_loop_calls World export path_join stem self output_dir
              format (split_by_color concatenate self)
              {| world := w1; log := l; exported_files := [] |})
    as (Hp & Hf & _).
  simpl in Hp, Hf. rewrite Hf.
  assert (NoDup (call_path <$>
                   export_calls World export path_join stem self output_dir
                     format (split_by_color concatenate self) w1)) as Hcalls.
  { rewrite Hp, split_by_color_fmap by done.
    rewrite <- list_fmap_compose.
    apply NoDup_fmap_2_strong; [|by eapply NoDup_fmap_1].
    intros [k1 g1] [k2 g2] H1 H2 Heq. simpl in Heq.
    assert (k1 = k2) as ->.
    { apply (filename_inj (stem (input_file self)) format).
      apply Hjoin; [| |exact Heq]; apply list_elem_of_fmap; by eexists (_, _). }
    f_equal. apply (elem_get_Some _ _ _ Hnd) in H1, H2. congruence. }
  split_and!; [done| |].
  - eapply sublist_NoDup; [exact Hcalls|].
    apply fmap_sublist, sublist_filter.
  - transitivity (length (call_path <$>
                   export_calls World export path_join stem self output_dir
                     format (split_by_color concatenate self) w1)).
    + apply sublist_length, fmap_sublist, sublist_filter.
    + rewrite Hp, split_by_color_fmap by done. by rewrite !length_fmap.
Qed.

End OneFilePerGroup.

Lemma export_split_meshes_distinct_paths_witness :
  ∃ r, export_split_meshes disk disk_mkdir disk_export join_path stem_model
         join_meshes three_groups "out" "stl" [] [] = Ok r
       ∧ NoDup (exported_files disk r)
       ∧ exported_files disk r
         = ["out/model_paint_color_5.stl"; "out/model_paint_color_0.stl"].
Proof.
  destruct (export_split_meshes_distinct_paths disk disk_mkdir disk_export
              join_path stem_model join_meshes three_groups "out" "stl"
              [] [] [])
    as (r & Hr & _ & Hnd & _).
  - repeat apply grown_add. apply grown_empty.
  - intros k1 k2 _ _ filename Heq.
    by apply String.app_inj, String.app_inj in Heq.
  - reflexivity.
  - exists r. split; [exact Hr|]. split; [exact Hnd|].
    vm_compute in Hr. by injection Hr as <-.
Defined.

(** ** The command line *)

Section MainFacts.

Variable World : Type.
Variable mkdir : string → World → result World.
Variable export : Trimesh → string → World → World * option exn.
Variable path_join : string → string → string.
Variable stem : string → string.
Variable concatenate : list Trimesh → Trimesh.
Variable submesh : Trimesh → selection → submesh_result.
Variable path_exists : string → World → bool.
Variable trimesh_load : string → World → result Loaded.
Variable read_archive : string → World → result Archive.


End MainFacts.

(** ** Scenes are correlated with their first object *)





(** ** Reading back the triangle records *)

Lemma append_cons (x : ascii) (a b : string) :
  String x a +:+ b = String x (a +:+ b).
Proof. reflexivity. Qed.

Lemma append_assoc (a b c : string) : (a +:+ b) +:+ c = a +:+ b +:+ c.
Proof.
  induction a as [|x a IH]; [done|]. by rewrite !append_cons, IH.
Qed.

Lemma lit_append (p s : string) : Re.lit p (p +:+ s) = Some s.
Proof.
  induction p as [|c p IH]; [done|].
  rewrite append_cons. simpl. by rewrite Ascii.eqb_refl.
Qed.

Lemma span_digits_append (d : string) (c : ascii) (s : string) :
  digits_only d = true → Py.is_digit c = false →
  Re.span_digits (d +:+ String c s) = (d, String c s).
Proof.
  intros Hd Hc. induction d as [|x d IH].
  - simpl. by rewrite Hc.
  - simpl in Hd. apply andb_true_iff in Hd as [Hx Hd].
    rewrite append_cons. simpl. by rewrite Hx, IH.
Qed.

Lemma digits_append (d : string) (c : ascii) (s : string) :
  is_number d = true → Py.is_digit c = false →
  Re.digits (d +:+ String c s) = Some (d, String c s).
Proof.
  intros Hd Hc. unfold Re.digits.
  rewrite span_digits_append; [|by destruct d|done]. by destruct d.
Qed.

Lemma lit_append2 (a b s : string) :
  Re.lit (a +:+ b) (a +:+ b +:+ s) = Some s.
Proof. rewrite <- (append_assoc a b s). apply lit_append. Qed.

Lemma lit_append3 (a b c s : string) :
  Re.lit (a +:+ b +:+ c) (a +:+ b +:+ c +:+ s) = Some s.
Proof.
  rewrite <- (append_assoc b c s), <- (append_assoc a (b +:+ c) s).
  apply lit_append.
Qed.

Lemma digits_quote (d s : string) :
  is_number d = true →
  Re.digits (d +:+ Re.quote +:+ s) = Some (d, Re.quote +:+ s).
Proof. intros Hd. by apply digits_append. Qed.

Lemma triangle_head_line (v1 v2 v3 s : string) :
  is_number v1 = true → is_number v2 = true → is_number v3 = true →
  Re.triangle_head
    ("<triangle v1=" +:+ Re.quote +:+ v1 +:+ Re.quote
     +:+ " v2=" +:+ Re.quote +:+ v2 +:+ Re.quote
     +:+ " v3=" +:+ Re.quote +:+ v3 +:+ Re.quote +:+ s)
  = Some (v1, v2, v3, s).
Proof.
  intros H1 H2 H3. unfold Re.triangle_head.
  rewrite lit_append2. cbn [mbind option_bind].
  rewrite digits_quote by done. cbn [mbind option_bind].
  rewrite lit_append3. cbn [mbind option_bind].
  rewrite digits_quote by done. cbn [mbind option_bind].
  rewrite lit_append3. cbn [mbind option_bind].
  rewrite digits_quote by done. cbn [mbind option_bind].
  rewrite (lit_append Re.quote). done.
Qed.

(** What follows the third vertex of a record, up to the text [s] after
    its line. *)
Lemma triangle_line_append (v1 v2 v3 : string) (c : option string)
    (s : string) :
  triangle_line v1 v2 v3 c +:+ s
  = "<triangle v1=" +:+ Re.quote +:+ v1 +:+ Re.quote
    +:+ " v2=" +:+ Re.quote +:+ v2 +:+ Re.quote
    +:+ " v3=" +:+ Re.quote +:+ v3 +:+ Re.quote
    +:+ match c with
        | Some c => " paint_color=" +:+ Re.quote +:+ c +:+ Re.quote
                    +:+ "/>" +:+ String Re.newline s
        | None => "/>" +:+ String Re.newline s
        end.
Proof.
  unfold triangle_line. rewrite !append_assoc.
  destruct c as [c|]; by rewrite ?append_assoc.
Qed.

Lemma paint_color_pattern_line (v1 v2 v3 : string) (c : option string)
    (s : string) :
  well_formed (v1, v2, v3, c) = true →
  Re.paint_color_pattern (triangle_line v1 v2 v3 c +:+ s)
  = (λ c, ((v1, v2, v3, c), "/>" +:+ String Re.newline s)) <$> c.
Proof.
  unfold well_formed. rewrite !andb_true_iff. intros [[[H1 H2] H3] Hc].
  rewrite triangle_line_append. unfold Re.paint_color_pattern.
  rewrite triangle_head_line by done. cbn [mbind option_bind].
  destruct c as [c|]; [|done]. simpl in Hc.
  rewrite lit_append2. cbn [mbind option_bind].
  rewrite digits_quote by done. cbn [mbind option_bind].
  by rewrite (lit_append Re.quote).
Qed.

Lemma no_paint_pattern_line (v1 v2 v3 : string) (c : option string)
    (s : string) :
  well_formed (v1, v2, v3, c) = true →
  Re.no_paint_pattern (triangle_line v1 v2 v3 c +:+ s)
  = match c with
    | Some _ => None
    | None => Some ((v1, v2, v3), "/>" +:+ String Re.newline s)
    end.
Proof.
  unfold well_formed. rewrite !andb_true_iff. intros [[[H1 H2] H3] Hc].
  rewrite triangle_line_append. unfold Re.no_paint_pattern.
  rewrite triangle_head_line by done. cbn [mbind option_bind].
  destruct c as [c|]; [|done]. done.
Qed.

Lemma no_lt_append (a b : string) : no_lt (a +:+ b) = no_lt a && no_lt b.
Proof.
  induction a as [|x a IH]; [done|].
  rewrite append_cons. simpl. by rewrite IH, andb_assoc.
Qed.

Lemma no_lt_number (d : string) : digits_only d = true → no_lt d = true.
Proof.
  induction d as [|x d IH]; [done|]. simpl.
  intros [Hx Hd]%andb_true_iff. rewrite IH by done.
  destruct (Ascii.eqb_spec x "<") as [->|]; [done|done].
Qed.

Lemma is_number_digits (d : string) : is_number d = true → digits_only d = true.
Proof. by destruct d. Qed.

Section Findall.

Context {G : Type}.
Variable pat : string → option (G * string).

(** Both patterns begin with the character that opens an element. *)
Hypothesis pat_lt : ∀ c t, Ascii.eqb c "<" = false → pat (String c t) = None.

Lemma findall_from_skip (u s : string) (skip : nat) :
  no_lt u = true → (skip ≤ String.length u)%nat →
  Re.findall_from pat skip (u +:+ s) = Re.findall_from pat 0 s.
Proof.
  revert skip. induction u as [|c u IH]; intros skip Hu Hskip.
  - simpl in Hskip. by replace skip with 0%nat by lia.
  - simpl in Hu. apply andb_true_iff in Hu as [Hc Hu].
    apply negb_true_iff in Hc. rewrite append_cons.
    destruct skip as [|k]; simpl.
    + rewrite pat_lt by done. by apply IH; [|lia].
    + apply IH; [done|]. simpl in Hskip. lia.
Qed.

Lemma findall_from_line (indent u s : string) :
  no_lt indent = true → no_lt u = true →
  match pat (String "<" (u +:+ s)) with
  | Some (_, rest) => (String.length s ≤ String.length rest)%nat
  | None => True
  end →
  Re.findall_from pat 0 (indent +:+ String "<" u +:+ s)
  = match pat (String "<" (u +:+ s)) with
    | Some (g, _) => [g]
    | None => []
    end ++ Re.findall_from pat 0 s.
Proof.
  intros Hindent Hu Hrest.
  rewrite findall_from_skip by (done || lia). rewrite append_cons.
  cbn [Re.findall_from].
  destruct (pat (String "<" (u +:+ s))) as [[g rest]|].
  - simpl. f_equal. apply findall_from_skip; [done|].
    simpl. rewrite length_append. lia.
  - simpl. by apply findall_from_skip; [|lia].
Qed.

End Findall.

Lemma triangle_head_lt (c : ascii) (t : string) :
  Ascii.eqb c "<" = false → Re.triangle_head (String c t) = None.
Proof.
  intros Hc. unfold Re.triangle_head.
  rewrite (append_cons "<" "triangle v1=" Re.quote).
  assert (∀ p, Re.lit (String "<" p) (String c t) = None) as ->; [|done].
  intros p. change (Re.lit (String "<" p) (String c t))
    with (if Ascii.eqb "<" c then Re.lit p t else None).
  by rewrite Ascii.eqb_sym, Hc.
Qed.

Lemma triangle_line_lt (v1 v2 v3 : string) (c : option string) :
  well_formed (v1, v2, v3, c) = true →
  ∃ u, triangle_line v1 v2 v3 c = String "<" u ∧ no_lt u = true.
Proof.
  unfold well_formed. rewrite !andb_true_iff. intros [[[H1 H2] H3] Hc].
  exists ("triangle v1=" +:+ Re.quote +:+ v1 +:+ Re.quote
          +:+ " v2=" +:+ Re.quote +:+ v2 +:+ Re.quote
          +:+ " v3=" +:+ Re.quote +:+ v3 +:+ Re.quote
          +:+ match c with
              | Some c => " paint_color=" +:+ Re.quote +:+ c +:+ Re.quote
              | None => ""
              end
          +:+ "/>" +:+ String Re.newline "").
  split; [reflexivity|].
  rewrite !no_lt_append.
  rewrite (no_lt_number v1), (no_lt_number v2), (no_lt_number v3)
    by (by apply is_number_digits).
  destruct c as [c|]; [|done]. simpl in Hc.
  rewrite !no_lt_append.
  rewrite (no_lt_number c) by (by apply is_number_digits).
  done.
Qed.

(** X17. The two patterns read a well laid out model text back: for
    triangle elements written one per line behind a common indentation,
    with numerals for the vertices and the color, [re.findall] with the
    first pattern returns the records that carry a color, and with the
    second pattern those that carry none, each list complete and in the
    order of the text. *)
Theorem findall_records_text (indent : string)
    (ts : list (string * string * string * option string)) :
  no_lt indent = true →
  Forall (λ t, well_formed t = true) ts →
  Re.findall Re.paint_color_pattern (records_text indent ts)
  = omap (λ '(v1, v2, v3, c), (λ c, (v1, v2, v3, c)) <$> c) ts
  ∧ Re.findall Re.no_paint_pattern (records_text indent ts)
    = omap (λ '(v1, v2, v3, c),
              match c with
              | Some _ => None
              | None => Some (v1, v2, v3)
              end) ts.
Proof.
  intros Hindent Hall. unfold Re.findall.
  induction Hall as [|[[[v1 v2] v3] c] ts Ht _ [IHp IHn]]; [done|].
  destruct (triangle_line_lt v1 v2 v3 c Ht) as (u & Hu & Hlt).
  cbn [records_text foldr]. fold (records_text indent ts).
  set (s := records_text indent ts) in *.
  assert (String "<" (u +:+ s) = triangle_line v1 v2 v3 c +:+ s) as Hline
    by (by rewrite Hu).
  rewrite Hu. split.
  - rewrite (findall_from_line Re.paint_color_pattern) ; [|..|done|done|].
    + rewrite Hline, paint_color_pattern_line, IHp by done.
      cbn [omap list_omap]. by destruct c.
    + intros x t Hx. unfold Re.paint_color_pattern.
      by rewrite triangle_head_lt.
    + rewrite Hline, paint_color_pattern_line by done.
      destruct c; [|done]. simpl. lia.
  - rewrite (findall_from_line Re.no_paint_pattern) ; [|..|done|done|].
    + rewrite Hline, no_paint_pattern_line, IHn by done.
      cbn [omap list_omap]. by destruct c.
    + intros x t Hx. unfold Re.no_paint_pattern.
      by rewrite triangle_head_lt.
    + rewrite Hline, no_paint_pattern_line by done.
      destruct c; [done|]. simpl. lia.
Qed.

Lemma findall_records_text_witness :
  Re.findall Re.paint_color_pattern
    (records_text "    " [("0", "1", "2", Some "5"); ("1", "2", "3", None);
                          ("12", "7", "30", Some "14")])
  = [("0", "1", "2", "5"); ("12", "7", "30", "14")]
  ∧ Re.findall Re.no_paint_pattern
      (records_text "    " [("0", "1", "2", Some "5"); ("1", "2", "3", None);
                            ("12", "7", "30", Some "14")])
    = [("1", "2", "3")].
Proof.
  apply (findall_records_text "    "
           [("0", "1", "2", Some "5"); ("1", "2", "3", None);
            ("12", "7", "30", Some "14")]).
  - reflexivity.
  - repeat constructor.
Defined.
